(** * Contract-Ai: the Q&A evaluation harness and the field extractor

    A shallow embedding of [eval/run_eval.py] (the scoring harness) and of
    the contract the tests in [test/test_extraction.py] place on
    [ExtractionService.extract_fields].

    Conventions of the embedding.

    - Python [str] is [string] (a byte string holding UTF-8); [Py.lower]
      is [str.lower] on ASCII text: it folds 'A'..'Z' and leaves every
      other byte alone, where [str.lower] follows the Unicode rules.
      Statements about arbitrary keywords are therefore made for ASCII
      text, against the case-blind search of module [Case].
    - Python [float] scores are carried through a run as exact rationals
      ([Q], equality [==]): the harness divides two list lengths,
      halves, adds a tenth, takes a minimum and compares with literals.
      Where a statement depends on how binary64 rounds these steps, it
      is made in module [Binary64], which embeds the same lines over
      IEEE 754 numbers.
    - Python [dict] literals are association lists in insertion order,
      [d[k]] is [dict_get] and a missing key is a [KeyError].
    - [requests], the file system and [sys.exit] are effects: the harness
      runs in a small monad over a trace of events, with the outside
      world given once and for all by an [Env]. *)

From Stdlib Require Import String Ascii List ZArith QArith Lia Lqa Bool DecimalString.
From Stdlib Require Import SpecFloat.
Import ListNotations.

Open Scope string_scope.
Open Scope Z_scope.

(* ================================================================== *)
(** * Strings as Python uses them *)
(* ================================================================== *)

Module Py.

(** One character of [str.lower()] on ASCII text: 'A'..'Z' (65..90) move
    to 'a'..'z'. Bytes from 128 on are left alone, which is not what
    [str.lower] does with the letters they encode. *)
Definition lower_char (c : ascii) : ascii :=
  let n := nat_of_ascii c in
  if (65 <=? n)%nat && (n <=? 90)%nat then ascii_of_nat (n + 32) else c.

(** [s.lower()] *)
Fixpoint lower (s : string) : string :=
  match s with
  | EmptyString => EmptyString
  | String c s' => String (lower_char c) (lower s')
  end.

(** [needle in hay] for two strings: [needle] starts at some offset of
    [hay]; the empty needle is in every string. *)
Fixpoint str_in (needle hay : string) : bool :=
  String.prefix needle hay ||
  match hay with
  | EmptyString => false
  | String _ hay' => str_in needle hay'
  end.

(** [k] occurs in [a] when case is ignored: some stretch of [a] reads as
    [k] once both are lower-cased. *)
Definition occurs_ci (k a : string) : Prop :=
  exists pre mid post, a = pre ++ mid ++ post /\ lower mid = lower k.

(** [any(p(x) for x in xs)] *)
Definition any {A : Type} (p : A -> bool) (xs : list A) : bool := existsb p xs.

(** [str(n)] for an integer, as an f-string prints it. *)
Definition str_of_int (n : Z) : string := NilZero.string_of_int (Z.to_int n).

(** [len(xs)] as a Python integer. *)
Definition len {A : Type} (xs : list A) : Z := Z.of_nat (List.length xs).

(** [a / b] on two integers: true division. The callers guard [b <> 0]
    or raise [ZeroDivisionError] themselves. *)
Definition true_div (a b : Z) : Q := inject_Z a / inject_Z b.

(** [x >= y] on floats. *)
Definition ge (x y : Q) : bool := Qle_bool y x.

(** [min(x, y)]: the first argument unless the second is strictly smaller. *)
Definition min (x y : Q) : Q := if negb (Qle_bool x y) then y else x.

(** [path.split('/')[-1]]: what follows the last slash. *)
Fixpoint basename_aux (acc s : string) : string :=
  match s with
  | EmptyString => acc
  | String c s' =>
      if Ascii.eqb c "/"%char then basename_aux s' s' else basename_aux acc s'
  end.

Definition basename (path : string) : string := basename_aux path path.

End Py.

(* ================================================================== *)
(** * JSON values and dictionaries *)
(* ================================================================== *)

(** The values the harness stores in its result dictionaries. *)
Inductive value : Type :=
| VInt (n : Z)
| VStr (s : string)
| VFloat (x : Q)
| VBool (b : bool)
| VStrList (l : list string).

(** A [dict] literal: keys in insertion order. *)
Definition dict : Type := list (string * value).

Fixpoint dict_get (d : dict) (k : string) : option value :=
  match d with
  | [] => None
  | (k', v) :: d' => if String.eqb k' k then Some v else dict_get d' k
  end.

(** [k in d] *)
Definition has_key (d : dict) (k : string) : bool :=
  match dict_get d k with Some _ => true | None => false end.

Definition keys (d : dict) : list string := map fst d.

(* ================================================================== *)
(** * The data of an evaluation run *)
(* ================================================================== *)

(** One record of [eval/qa_eval_set.json]. *)
Record Question : Type := {
  id : value;
  question : string;
  expected_keywords : list string
}.

(** The JSON body of a [POST /ask] answer; both keys are read with
    [data.get(key, default)], so either may be missing. Only the number
    of citations is ever looked at. *)
Record AskBody : Type := {
  answer : option string;
  citations : option (list string)
}.

Record Response : Type := {
  status_code : Z;
  json : AskBody
}.

(** The body of a [POST /ingest] answer. *)
Record IngestResponse : Type := {
  ingest_status : Z;
  document_ids : option (list string)
}.

(** What is written to [eval/eval_results.json]. *)
Record Summary : Type := {
  average_score : Q;
  total_questions : Z;
  pass_rate : Q;
  results : list dict
}.

(* ================================================================== *)
(** * Scoring one answer ([evaluate_question], lines 61-113) *)
(* ================================================================== *)

Module Score.

(** The six keys of a scored result (lines 106-113), in order. *)
Definition result_fields : list string :=
  ["question_id"; "question"; "answer"; "score"; "matched_keywords";
   "has_citations"].

Definition negative_phrases : list string :=
  ["not found"; "cannot find"; "no information"; "not in the document"].

(** [data.get('answer', '')] *)
Definition answer_text (data : AskBody) : string :=
  match answer data with Some a => a | None => "" end.

(** [data.get('citations', [])] *)
Definition citation_list (data : AskBody) : list string :=
  match citations data with Some c => c | None => [] end.

(** Lines 74-79: the expected keywords whose lower-case form occurs in
    the (already lower-cased) answer, in their original order. *)
Definition matched_keywords (expected : list string) (answer : string)
  : list string :=
  filter (fun keyword => Py.str_in (Py.lower keyword) answer) expected.

(** Lines 73 and 82-83: the score before penalty and bonus. *)
Definition base_score (expected : list string) (answer : string) : Q :=
  if Py.len expected >? 0
  then Py.true_div (Py.len (matched_keywords expected answer)) (Py.len expected)
  else 0%Q.

(** Line 87 *)
Definition has_negative (answer : string) : bool :=
  Py.any (fun phrase => Py.str_in phrase answer) negative_phrases.

(** Lines 89-90 *)
Definition penalise (answer : string) (score : Q) : Q :=
  if has_negative answer then (score * (1 # 2))%Q else score.

(** Line 93 *)
Definition has_citations (data : AskBody) : bool :=
  Py.len (citation_list data) >? 0.

(** Lines 94-95, in exact arithmetic; rounded, [Binary64.final_score]. *)
Definition reward (data : AskBody) (score : Q) : Q :=
  if has_citations data then (score + (1 # 10))%Q else score.

(** Lines 69-97: the final score of a successful answer. *)
Definition final_score (expected : list string) (data : AskBody) : Q :=
  let answer := Py.lower (answer_text data) in
  let score := base_score expected answer in
  let score := penalise answer score in
  let score := reward data score in
  Py.min score 1%Q.

(** The keys of the dictionary returned for a non-200 response. *)
Definition error_fields : list string := ["question_id"; "score"; "reason"].

(** Lines 61-67: the dictionary returned for a non-200 response. *)
Definition error_result (q : Question) (response : Response) : dict :=
  [ ("question_id", id q);
    ("score", VFloat 0%Q);
    ("reason", VStr ("API error: " ++ Py.str_of_int (status_code response))) ].

(** Lines 69-113: the dictionary returned for a 200 response. *)
Definition scored_result (q : Question) (data : AskBody) : dict :=
  let answer := Py.lower (answer_text data) in
  [ ("question_id", id q);
    ("question", VStr (question q));
    ("answer", VStr (answer_text data));
    ("score", VFloat (final_score (expected_keywords q) data));
    ("matched_keywords", VStrList (matched_keywords (expected_keywords q) answer));
    ("has_citations", VBool (has_citations data)) ].

(** Lines 61-113 as a function of the response: what
    [evaluate_question] returns once the request has been answered. *)
Definition outcome_of (q : Question) (response : Response) : dict :=
  if negb (status_code response =? 200)
  then error_result q response
  else scored_result q (json response).

(** [r] is what [evaluate_question] returns for [q] on some response. *)
Definition result_for (q : Question) (r : dict) : Prop :=
  exists response, r = outcome_of q response.

End Score.

(* ================================================================== *)
(** * Effects: requests, files, [sys.exit] and exceptions *)
(* ================================================================== *)

(** The exceptions the harness can meet. Only [ConnectionError] is ever
    caught (line 128); every other one ends the run with a traceback. *)
Inductive Exn : Type :=
| ConnectionError
| RequestException
| FileNotFoundError
| KeyError
| TypeError
| ZeroDivisionError.

(** What a [requests] call comes back with. *)
Inductive Http (A : Type) : Type :=
| Responded (r : A)
| Failed (e : Exn).

Arguments Responded {A} r.
Arguments Failed {A} e.

(** What the harness does to the outside world, in order. *)
Inductive Event : Type :=
| GetHealthz
| OpenRead (path : string)
| PostIngest (names : list string)
| LoadEvalSet
| PostAsk (q : string)
| PrintGrade (grade : string)
| WriteResults (s : Summary).

Definition Trace : Type := list Event.

(** The outside world. [ask n q] is the service's reaction to the
    request for [q] when [n] requests to [/ask] went before it. *)
Record Env : Type := {
  healthz : Http Z;
  fs_read : string -> option string;
  ingest : list (string * string) -> Http IngestResponse;
  eval_file : option (list Question);
  ask : nat -> string -> Http Response
}.

(** How a computation ends. *)
Inductive Result (A : Type) : Type :=
| Ok (a : A)
| SysExit (code : Z)
| Raise (e : Exn).

Arguments Ok {A} a.
Arguments SysExit {A} code.
Arguments Raise {A} e.

(** A computation reads the trace so far and extends it. *)
Definition M (A : Type) : Type := Trace -> Trace * Result A.

Definition ret {A : Type} (a : A) : M A := fun tr => (tr, Ok a).

Definition bind {A B : Type} (m : M A) (k : A -> M B) : M B :=
  fun tr =>
    match m tr with
    | (tr', Ok a) => k a tr'
    | (tr', SysExit c) => (tr', SysExit c)
    | (tr', Raise e) => (tr', Raise e)
    end.

Definition emit (e : Event) : M unit := fun tr => ((tr ++ [e])%list, Ok tt).

Definition raise {A : Type} (e : Exn) : M A := fun tr => (tr, Raise e).

Definition sys_exit {A : Type} (code : Z) : M A := fun tr => (tr, SysExit code).

(** [try: m except e: handler] for one exception class. *)
Definition try_except {A : Type} (m : M A) (caught : Exn -> bool)
  (handler : M A) : M A :=
  fun tr =>
    match m tr with
    | (tr', Raise e) => if caught e then handler tr' else (tr', Raise e)
    | other => other
    end.

(** The value of a [requests] call, or its exception. *)
Definition http {A : Type} (e : Event) (outcome : Http A) : M A :=
  fun tr =>
    match outcome with
    | Responded r => ((tr ++ [e])%list, Ok r)
    | Failed x => ((tr ++ [e])%list, Raise x)
    end.

Notation "x <- m ;; k" := (bind m (fun x => k))
  (at level 61, m at next level, right associativity).
Notation "m ;;; k" := (bind m (fun _ => k))
  (at level 61, right associativity).

(** The exit status the operating system sees: 0 after a normal return,
    the argument of [sys.exit], and 1 after an uncaught exception. *)
Definition exit_status {A : Type} (r : Result A) : Z :=
  match r with
  | Ok _ => 0
  | SysExit c => c
  | Raise _ => 1
  end.

Definition is_ask (e : Event) : bool :=
  match e with PostAsk _ => true | _ => false end.

(** How many [/ask] requests a trace holds. *)
Definition asks_so_far (tr : Trace) : nat := List.length (filter is_ask tr).

(** The summaries written during a trace, oldest first. *)
Fixpoint written (tr : Trace) : list Summary :=
  match tr with
  | [] => []
  | WriteResults s :: tr' => s :: written tr'
  | _ :: tr' => written tr'
  end.

(** The questions put to [/ask] during a trace, oldest first. *)
Fixpoint asked (tr : Trace) : list string :=
  match tr with
  | [] => []
  | PostAsk q :: tr' => q :: asked tr'
  | _ :: tr' => asked tr'
  end.

(* ================================================================== *)
(** * The harness ([eval/run_eval.py]) *)
(* ================================================================== *)

Definition is_connection_error (e : Exn) : bool :=
  match e with ConnectionError => true | _ => false end.

Definition is_file_not_found (e : Exn) : bool :=
  match e with FileNotFoundError => true | _ => false end.

Definition is_nil {A : Type} (l : list A) : bool :=
  match l with [] => true | _ => false end.

(** [open(path, 'rb').read()] *)
Definition open_read (env : Env) (path : string) : M string :=
  emit (OpenRead path) ;;;
  match fs_read env path with
  | Some content => ret content
  | None => raise FileNotFoundError
  end.

(** [requests.post(f"{API_BASE_URL}/ask", params={"question": q})] *)
Definition post_ask (env : Env) (q : string) : M Response :=
  fun tr => http (PostAsk q) (ask env (asks_so_far tr) q) tr.

(** Lines 14-17 *)
Definition load_eval_set (env : Env) : M (list Question) :=
  emit LoadEvalSet ;;;
  match eval_file env with
  | Some eval_set => ret eval_set
  | None => raise FileNotFoundError
  end.

(** Lines 23-26 *)
Definition test_files : list string :=
  ["uploads/Sample NDA.pdf"; "uploads/NDA.pdf"].

(** Lines 28-34: the files that could be opened, as (name, content). *)
Fixpoint read_test_files (env : Env) (paths : list string)
  (files : list (string * string)) : M (list (string * string)) :=
  match paths with
  | [] => ret files
  | filepath :: rest =>
      files' <- try_except
                  (content <- open_read env filepath ;;
                   ret (files ++ [(Py.basename filepath, content)])%list)
                  is_file_not_found
                  (ret files) ;;
      read_test_files env rest files'
  end.

(** Lines 19-49 *)
Definition upload_test_documents (env : Env) : M (list string) :=
  files <- read_test_files env test_files [] ;;
  if is_nil files then ret []
  else
    response <- http (PostIngest (map fst files)) (ingest env files) ;;
    if ingest_status response =? 200
    then ret (match document_ids response with
              | Some doc_ids => doc_ids
              | None => []
              end)
    else ret [].

(** Lines 51-113 *)
Definition evaluate_question (env : Env) (q : Question)
  (document_ids : list string) : M dict :=
  response <- post_ask env (question q) ;;
  if negb (status_code response =? 200)
  then ret (Score.error_result q response)
  else ret (Score.scored_result q (json response)).

(** Lines 144-147: the loop appends one result per question. *)
Fixpoint eval_loop (env : Env) (eval_set : list Question)
  (doc_ids : list string) (results : list dict) : M (list dict) :=
  match eval_set with
  | [] => ret results
  | q :: rest =>
      result <- evaluate_question env q doc_ids ;;
      eval_loop env rest doc_ids (results ++ [result])%list
  end.

(** A JSON value used as a number. *)
Definition as_number (v : value) : option Q :=
  match v with
  | VFloat x => Some x
  | VInt n => Some (inject_Z n)
  | VBool b => Some (if b then 1%Q else 0%Q)
  | VStr _ | VStrList _ => None
  end.

(** [r['score']] where a number is wanted. *)
Definition get_score (r : dict) : M Q :=
  match dict_get r "score" with
  | None => raise KeyError
  | Some v =>
      match as_number v with
      | Some x => ret x
      | None => raise TypeError
      end
  end.

(** [sum(r['score'] for r in results)], from the left, starting at 0,
    in exact arithmetic; rounded, [Binary64.sum_scores]. *)
Fixpoint sum_scores (results : list dict) (acc : Q) : M Q :=
  match results with
  | [] => ret acc
  | r :: rest => s <- get_score r ;; sum_scores rest (acc + s)%Q
  end.

(** [sum(1 for r in results if r['score'] >= 0.7)] *)
Fixpoint count_passed (results : list dict) (acc : Z) : M Z :=
  match results with
  | [] => ret acc
  | r :: rest =>
      s <- get_score r ;;
      count_passed rest (if Py.ge s (7 # 10) then acc + 1 else acc)
  end.

(** [x / n] with a float on the left and [len(results)] on the right. *)
Definition div_by_len (x : Q) (n : Z) : M Q :=
  if n =? 0 then raise ZeroDivisionError else ret (x / inject_Z n)%Q.

(** Line 150: [sum(r['score'] for r in results) / len(results)], in exact
    arithmetic; rounded, [Binary64.average_of]. *)
Definition average_of (results : list dict) : M Q :=
  total <- sum_scores results 0%Q ;;
  div_by_len total (Py.len results).

(** Line 177:
    [sum(1 for r in results if r['score'] >= 0.7) / len(results)] *)
Definition pass_rate_of (results : list dict) : M Q :=
  passed <- count_passed results 0 ;;
  div_by_len (inject_Z passed) (Py.len results).

(** Lines 161-168 *)
Definition grade (avg_score : Q) : string :=
  if Py.ge avg_score (8 # 10) then "🌟 EXCELLENT"
  else if Py.ge avg_score (7 # 10) then "✅ GOOD"
  else if Py.ge avg_score (5 # 10) then "⚠️  FAIR"
  else "❌ NEEDS IMPROVEMENT".

(** Lines 122-131: the health probe inside its [try]; [sys.exit] is
    not a [ConnectionError] and passes through the handler. *)
Definition health_check (env : Env) : M unit :=
  try_except
    (status <- http GetHealthz (healthz env) ;;
     if negb (status =? 200) then sys_exit 1 else ret tt)
    is_connection_error
    (sys_exit 1).

(** Lines 115-188. Console output is kept for the grade only. *)
Definition run_evaluation (env : Env) : M unit :=
  health_check env ;;;
  doc_ids <- upload_test_documents env ;;
  if is_nil doc_ids then sys_exit 1
  else
    eval_set <- load_eval_set env ;;
    results <- eval_loop env eval_set doc_ids [] ;;
    avg_score <- average_of results ;;
    emit (PrintGrade (grade avg_score)) ;;;
    rate <- pass_rate_of results ;;
    emit (WriteResults {| average_score := avg_score;
                          total_questions := Py.len results;
                          pass_rate := rate;
                          results := results |}).

(* ================================================================== *)
(** * The field extractor ([ExtractionService.extract_fields]) *)
(* ================================================================== *)

Module Extraction.

(** Modelled from the spec: [app/models.py] is not among the sources;
    a normalized calendar date of [ExtractedFields.effective_date]. *)
Record Date : Type := {
  year : Z;
  month : Z;
  day : Z
}.

(** Modelled from the spec: the liability cap of [app/models.py], a
    numeric value with its currency symbol or code. *)
Record LiabilityCap : Type := {
  amount : Z;
  currency : string
}.

(** Modelled from the spec: one signer of [app/models.py], as a
    name / title / company triple. *)
Record Signature : Type := {
  signer : string;
  title : string;
  company : string
}.

(** Modelled from the spec: the [ExtractedFields] record of
    [app/models.py] (section 3, data model). *)
Record ExtractedFields : Type := {
  parties : list string;
  effective_date : option Date;
  governing_law : option string;
  liability_cap : option LiabilityCap;
  signatures : list Signature
}.

(** Modelled from the spec: what a step inside
    [app/services/extraction_service.py] ends with, a value or an
    internal pattern-matching error. *)
Inductive Attempt (A : Type) : Type :=
| Got (a : A)
| PatternError.

Arguments Got {A} a.
Arguments PatternError {A}.

(** Modelled from the spec: the pattern scanners of
    [app/services/extraction_service.py], whose regular expressions the
    spec leaves open. Each looks at the (truncated) text and finds
    something, finds nothing, or fails. [normalize] is the name
    normalization parties are deduplicated by, [threshold] the fixed
    length beyond which a document is truncated, and [keep_tail] whether
    truncation keeps the head and the tail rather than the head alone. *)
Record Patterns : Type := {
  threshold : nat;
  keep_tail : bool;
  normalize : string -> string;
  scan_parties : string -> Attempt (list string);
  scan_date_token : string -> Attempt (option string);
  scan_governing_law : string -> Attempt (option string);
  scan_liability_cap : string -> Attempt (option LiabilityCap);
  scan_signatures : string -> Attempt (list Signature)
}.

(** Modelled from the spec: sequencing inside the extraction service; an
    error of the first step is the error of the whole. *)
Definition and_then {A B : Type} (a : Attempt A) (k : A -> Attempt B)
  : Attempt B :=
  match a with
  | Got x => k x
  | PatternError => PatternError
  end.

(** Modelled from the spec: the local handler of the extraction service,
    "any internal pattern-matching error must be caught locally and
    treated as field not found". *)
Definition caught {A : Type} (a : Attempt A) (not_found : A) : Attempt A :=
  match a with
  | Got x => Got x
  | PatternError => Got not_found
  end.

(** Modelled from the spec: the truncation policy of the extraction
    service. A text within the threshold is untouched; a longer one
    keeps its first [threshold] characters, or, with [keep_tail], its
    head and its tail, [threshold] characters in all. *)
Definition truncate (P : Patterns) (text : string) : string :=
  let n := String.length text in
  let limit := threshold P in
  if (n <=? limit)%nat then text
  else if keep_tail P
       then let tail := (limit / 2)%nat in
            let head := (limit - tail)%nat in
            substring 0 head text ++ substring (n - tail) tail text
       else substring 0 limit text.

(** Modelled from the spec: deduplication of parties by normalized name,
    first-seen order preserved ([seen] holds the normalized names
    already kept). *)
Fixpoint dedup (norm : string -> string) (seen names : list string)
  : list string :=
  match names with
  | [] => []
  | name :: rest =>
      if existsb (String.eqb (norm name)) seen
      then dedup norm seen rest
      else name :: dedup norm (norm name :: seen) rest
  end.

(** Modelled from the spec: the pieces of a date token between
    occurrences of a separator character. *)
Fixpoint split_on (sep : ascii) (s : string) : list string :=
  match s with
  | EmptyString => [EmptyString]
  | String c s' =>
      if Ascii.eqb c sep then EmptyString :: split_on sep s'
      else match split_on sep s' with
           | [] => [String c EmptyString]
           | piece :: pieces => String c piece :: pieces
           end
  end.

(** Modelled from the spec: a decimal digit of a date token. *)
Definition digit_of (c : ascii) : option Z :=
  let n := nat_of_ascii c in
  if (48 <=? n)%nat && (n <=? 57)%nat then Some (Z.of_nat (n - 48)) else None.

(** Modelled from the spec: the digits of a date token read as a
    number, most significant first. *)
Fixpoint number_from (acc : Z) (s : string) : option Z :=
  match s with
  | EmptyString => Some acc
  | String c s' =>
      match digit_of c with
      | Some d => number_from (10 * acc + d) s'
      | None => None
      end
  end.

(** Modelled from the spec: a non-empty run of digits as a number. *)
Definition number (s : string) : option Z :=
  match s with
  | EmptyString => None
  | _ => number_from 0 s
  end.

(** Modelled from the spec: the month names of the long-month form. *)
Definition month_names : list string :=
  ["January"; "February"; "March"; "April"; "May"; "June"; "July";
   "August"; "September"; "October"; "November"; "December"].

(** Modelled from the spec: the number (1..12) of a month name. *)
Fixpoint month_index (name : string) (names : list string) (i : Z)
  : option Z :=
  match names with
  | [] => None
  | n :: rest => if String.eqb n name then Some i else month_index name rest (i + 1)
  end.

(** Modelled from the spec: a date is kept when its month and day are
    those of a calendar. *)
Definition make_date (y m d : Z) : option Date :=
  if (1 <=? m) && (m <=? 12) && (1 <=? d) && (d <=? 31)
  then Some {| year := y; month := m; day := d |}
  else None.

(** Modelled from the spec: the numeric slash form [MM/DD/YYYY]. *)
Definition parse_slash (token : string) : option Date :=
  match split_on "/"%char token with
  | [mm; dd; yyyy] =>
      match number mm, number dd, number yyyy with
      | Some m, Some d, Some y => make_date y m d
      | _, _, _ => None
      end
  | _ => None
  end.

(** Modelled from the spec: the ISO form [YYYY-MM-DD]. *)
Definition parse_iso (token : string) : option Date :=
  match split_on "-"%char token with
  | [yyyy; mm; dd] =>
      match number yyyy, number mm, number dd with
      | Some y, Some m, Some d => make_date y m d
      | _, _, _ => None
      end
  | _ => None
  end.

(** Modelled from the spec: a day followed by its comma, ["15,"]. *)
Fixpoint day_with_comma (acc s : string) : option Z :=
  match s with
  | EmptyString => None
  | String c EmptyString => if Ascii.eqb c ","%char then number acc else None
  | String c s' => day_with_comma (acc ++ String c EmptyString) s'
  end.

(** Modelled from the spec: the long-month form [Month DD, YYYY]. *)
Definition parse_long (token : string) : option Date :=
  match split_on " "%char token with
  | [name; dd; yyyy] =>
      match month_index name month_names 1, day_with_comma "" dd, number yyyy with
      | Some m, Some d, Some y => make_date y m d
      | _, _, _ => None
      end
  | _ => None
  end.

(** Modelled from the spec: the three supported formats in their fixed
    priority order (numeric slash, ISO, long month); the first
    successful parse wins. *)
Definition parse_date (token : string) : option Date :=
  match parse_slash token with
  | Some d => Some d
  | None =>
      match parse_iso token with
      | Some d => Some d
      | None => parse_long token
      end
  end.

(** Modelled from the spec: the value returned for empty input,
    [parties = []] and every optional field [None]. *)
Definition no_fields : ExtractedFields :=
  {| parties := [];
     effective_date := None;
     governing_law := None;
     liability_cap := None;
     signatures := [] |}.

(** Modelled from the spec: the per-field extractors of the extraction
    service, each a scan followed by the field's own normalization. *)
Definition extract_parties (P : Patterns) (doc : string)
  : Attempt (list string) :=
  and_then (scan_parties P doc) (fun names => Got (dedup (normalize P) [] names)).

(** Modelled from the spec: the effective-date extractor, a labelled
    date token parsed against the three formats. *)
Definition extract_effective_date (P : Patterns) (doc : string)
  : Attempt (option Date) :=
  and_then (scan_date_token P doc)
    (fun token => Got (match token with
                       | Some t => parse_date t
                       | None => None
                       end)).

(** Modelled from the spec: [ExtractionService.extract_fields] of
    [app/services/extraction_service.py], which is not among the
    sources: empty input gives the empty record; otherwise the text is
    truncated and each field is extracted on its own, an error inside
    one extractor being caught there and read as "field not found". *)
Definition extract_fields (P : Patterns) (text : string)
  : Attempt ExtractedFields :=
  match text with
  | EmptyString => Got no_fields
  | _ =>
      let doc := truncate P text in
      and_then (caught (extract_parties P doc) []) (fun ps =>
      and_then (caught (extract_effective_date P doc) None) (fun date =>
      and_then (caught (scan_governing_law P doc) None) (fun law =>
      and_then (caught (scan_liability_cap P doc) None) (fun cap =>
      and_then (caught (scan_signatures P doc) []) (fun sigs =>
      Got {| parties := ps;
             effective_date := date;
             governing_law := law;
             liability_cap := cap;
             signatures := sigs |})))))
  end.

(** Modelled from the spec: a normalized date names a calendar month
    and day. *)
Definition valid_date (d : Date) : Prop :=
  1 <= month d <= 12 /\ 1 <= day d <= 31.

(** Modelled from the spec: a well-formed [ExtractedFields] (section 3):
    parties distinct by normalized name, and an effective date that,
    when present, is a normalized date. *)
Definition well_formed (P : Patterns) (f : ExtractedFields) : Prop :=
  NoDup (map (normalize P) (parties f)) /\
  (forall d, effective_date f = Some d -> valid_date d).

End Extraction.

(** ** Vocabulary for the statements about a run *)

(** A stretch of trace with no [/ask] request and no results file. *)
Definition silent (tr : Trace) : Prop := asked tr = [] /\ written tr = [].

(** [r['score']] is the float [x]. *)
Definition has_score (r : dict) (x : Q) : Prop :=
  dict_get r "score" = Some (VFloat x).

(** The requests a question set gives rise to, in order. *)
Definition requests_for (eval_set : list Question) : Trace :=
  map (fun q => PostAsk (question q)) eval_set.

(** Why a run can end without a summary: the service is not healthy,
    no document was uploaded, the question file is missing or empty, or
    a request to [/ask] raised. *)
Definition abort_cause (env : Env) : Prop :=
  healthz env <> Responded 200 \/
  (forall d ds, snd (upload_test_documents env [GetHealthz]) <> Ok (d :: ds)) \/
  eval_file env = None \/
  eval_file env = Some [] \/
  (exists n q e, ask env n q = Failed e).

(** The aggregate figures in the words of the spec. *)
Module SpecWords.

(** The arithmetic mean of the individual scores. *)
Definition arithmetic_mean (scores : list Q) : Q :=
  (fold_right Qplus 0 scores / inject_Z (Z.of_nat (List.length scores)))%Q.

(** The number of scores at or above 0.7, divided by their number. *)
Definition pass_fraction (scores : list Q) : Q :=
  (inject_Z (Z.of_nat (List.length (filter (fun x => Qle_bool (7 # 10) x) scores)))
   / inject_Z (Z.of_nat (List.length scores)))%Q.

(** The name of the band an average falls in. *)
Definition band (avg : Q) : string :=
  if Qle_bool (8 # 10) avg then "EXCELLENT"
  else if Qle_bool (7 # 10) avg then "GOOD"
  else if Qle_bool (5 # 10) avg then "FAIR"
  else "NEEDS IMPROVEMENT".

End SpecWords.

(* ================================================================== *)
(** * A sample run *)
(* ================================================================== *)

Module Sample.

(** The question of the spec's scoring example. *)
Definition q_law : Question :=
  {| id := VInt 1;
     question := "Which law governs, and for how long?";
     expected_keywords := ["California"; "two years"] |}.

Definition q_cap : Question :=
  {| id := VInt 2;
     question := "What is the liability cap?";
     expected_keywords := ["$100,000"] |}.

(** Half of the keywords, a deflecting phrase, one citation. *)
Definition deflecting : AskBody :=
  {| answer := Some "The laws of California govern; the term was Not Found.";
     citations := Some ["NDA.pdf p.2"] |}.

Definition ok_response : Response :=
  {| status_code := 200; json := deflecting |}.

Definition server_error : Response :=
  {| status_code := 500; json := {| answer := None; citations := None |} |}.

(** A healthy service with one test document; it answers the first
    request and fails with status 500 on every later one. *)
Definition env_up : Env :=
  {| healthz := Responded 200;
     fs_read := fun path =>
       if String.eqb path "uploads/NDA.pdf" then Some "%PDF" else None;
     ingest := fun _ =>
       Responded {| ingest_status := 200; document_ids := Some ["doc-1"] |};
     eval_file := Some [q_law; q_cap];
     ask := fun n _ =>
       match n with
       | O => Responded ok_response
       | S _ => Responded server_error
       end |}.

(** The same world with the service down. *)
Definition env_down : Env :=
  {| healthz := Failed ConnectionError;
     fs_read := fs_read env_up;
     ingest := ingest env_up;
     eval_file := eval_file env_up;
     ask := ask env_up |}.

(** The same world with no test document on disk. *)
Definition env_no_docs : Env :=
  {| healthz := Responded 200;
     fs_read := fun _ => None;
     ingest := ingest env_up;
     eval_file := eval_file env_up;
     ask := ask env_up |}.

End Sample.

(* ================================================================== *)
(** * Vocabulary for further properties of the harness *)
(* ================================================================== *)

(** Lines 144-179: what [run_evaluation] does with the loaded question
    set, from the loop to the results file. *)
Definition report_phase (env : Env) (eval_set : list Question)
  (doc_ids : list string) : M unit :=
  results <- eval_loop env eval_set doc_ids [] ;;
  avg_score <- average_of results ;;
  emit (PrintGrade (grade avg_score)) ;;;
  rate <- pass_rate_of results ;;
  emit (WriteResults {| average_score := avg_score;
                        total_questions := Py.len results;
                        pass_rate := rate;
                        results := results |}).

(** Whether [open(path, 'rb')] succeeds. *)
Definition can_open (env : Env) (path : string) : bool :=
  match fs_read env path with Some _ => true | None => false end.

(** The test files that can be opened, in the order of [test_files]. *)
Definition openable (env : Env) : list string :=
  filter (can_open env) test_files.

(** The (name, content) pairs handed to [POST /ingest]. *)
Definition upload_payload (env : Env) : list (string * string) :=
  flat_map (fun path =>
              match fs_read env path with
              | Some content => [(Py.basename path, content)]
              | None => []
              end) test_files.

(** [score >= 0.7], the pass mark of lines 100, 158 and 177. *)
Definition passes (score : Q) : bool := Py.ge score (7 # 10).

(** The citation bonus a response earns. *)
Definition bonus (data : AskBody) : Q :=
  if Score.has_citations data then 1 # 10 else 0.

(** The question file as the loop sees it; a missing file has no
    question to ask. *)
Definition questions_of (env : Env) : list Question :=
  match eval_file env with Some eval_set => eval_set | None => [] end.

(** More sample worlds. *)
Module Worlds.

(** The sample world with another question file. *)
Definition with_questions (file : option (list Question)) : Env :=
  {| healthz := healthz Sample.env_up;
     fs_read := fs_read Sample.env_up;
     ingest := ingest Sample.env_up;
     eval_file := file;
     ask := ask Sample.env_up |}.

(** The sample world with another [/ask] service. *)
Definition with_service (service : nat -> string -> Http Response) : Env :=
  {| healthz := healthz Sample.env_up;
     fs_read := fs_read Sample.env_up;
     ingest := ingest Sample.env_up;
     eval_file := eval_file Sample.env_up;
     ask := service |}.

(** The sample world with another [/ingest] service. *)
Definition with_ingest
  (service : list (string * string) -> Http IngestResponse) : Env :=
  {| healthz := healthz Sample.env_up;
     fs_read := fs_read Sample.env_up;
     ingest := service;
     eval_file := eval_file Sample.env_up;
     ask := ask Sample.env_up |}.

(** The first request is answered, the second one is refused. *)
Definition env_drops : Env :=
  with_service (fun n _ =>
                  match n with
                  | O => Responded Sample.ok_response
                  | S _ => Failed ConnectionError
                  end).

(** Every request is answered with a 500. *)
Definition env_broken : Env :=
  with_service (fun _ _ => Responded Sample.server_error).

(** Every request is answered in full. *)
Definition full_marks : AskBody :=
  {| answer := Some "CALIFORNIA law, for Two Years; the cap is $100,000.";
     citations := None |}.


(** The upload is turned away. *)
Definition env_rejected : Env :=
  with_ingest (fun _ =>
                 Responded {| ingest_status := 422; document_ids := None |}).

End Worlds.

(* ================================================================== *)
(** * Letter case on ASCII text, stated without [lower] *)
(* ================================================================== *)

(** [str.lower()] follows the Unicode case rules; on ASCII text these
    are the plain 'A'..'Z' to 'a'..'z' folding of [Py.lower]. The
    definitions below say what "ignoring letter case" means on such
    text without going through [Py.lower], so that statements about
    matching can be read against them. *)
Module Case.

(** A byte below 128. *)
Definition is_ascii_char (c : ascii) : bool := (nat_of_ascii c <? 128)%nat.

(** A string of ASCII characters only. *)
Fixpoint is_ascii (s : string) : bool :=
  match s with
  | EmptyString => true
  | String c s' => is_ascii_char c && is_ascii s'
  end.

(** One of 'A'..'Z'. *)
Definition is_upper (c : ascii) : bool :=
  (65 <=? nat_of_ascii c)%nat && (nat_of_ascii c <=? 90)%nat.

(** The same character, or the same letter in its two cases. *)
Definition same_letter (a b : ascii) : bool :=
  let x := nat_of_ascii a in
  let y := nat_of_ascii b in
  (x =? y)%nat
  || (is_upper a && (y =? x + 32)%nat)
  || (is_upper b && (x =? y + 32)%nat).

(** Two strings that read the same when letter case is ignored. *)
Fixpoint equal_ignoring_case (s t : string) : bool :=
  match s, t with
  | EmptyString, EmptyString => true
  | String a s', String b t' => same_letter a b && equal_ignoring_case s' t'
  | _, _ => false
  end.

(** [k] reads, case ignored, as the beginning of [a]. *)
Fixpoint starts_ignoring_case (k a : string) : bool :=
  match k with
  | EmptyString => true
  | String c k' =>
      match a with
      | EmptyString => false
      | String d a' => same_letter c d && starts_ignoring_case k' a'
      end
  end.

(** [k] reads, case ignored, as a stretch of [a]. *)
Fixpoint contains_ignoring_case (k a : string) : bool :=
  starts_ignoring_case k a ||
  match a with
  | EmptyString => false
  | String _ a' => contains_ignoring_case k a'
  end.

(** The same, said with a split of [a]. *)
Definition occurs_ignoring_case (k a : string) : Prop :=
  exists pre mid post,
    a = pre ++ mid ++ post /\ equal_ignoring_case mid k = true.


End Case.

(* ================================================================== *)
(** * The arithmetic of the harness in binary64 *)
(* ================================================================== *)

(** A Python [float] is an IEEE 754 binary64 number. The run above
    carries scores as exact rationals; this module embeds the
    arithmetic lines of the harness (82-97, 150, 177) with every
    operation rounded as the interpreter rounds it, for the statements
    that depend on the rounding. *)
Module Binary64.

Definition float : Type := spec_float.

Definition prec : Z := 53.
Definition emax : Z := 1024.

(** [float(n)] for an integer; exact below 2^53. *)
Definition of_int (n : Z) : float := binary_normalize prec emax n 0 false.

Definition add (x y : float) : float := SFadd prec emax x y.
Definition mul (x y : float) : float := SFmul prec emax x y.
Definition div (x y : float) : float := SFdiv prec emax x y.

(** [x >= y] *)
Definition ge (x y : float) : bool := SFleb y x.

(** [min(x, y)]: the first argument unless the second is strictly
    smaller. *)
Definition min (x y : float) : float := if SFltb y x then y else x.

(** A decimal literal [n/d], such as [0.7] = 7/10: the nearest binary64
    number, which is what correctly rounded division gives. *)
Definition literal (n d : Z) : float := div (of_int n) (of_int d).

(** The rational number a finite float stands for. *)
Definition value (x : float) : Q :=
  match x with
  | S754_finite sign m e =>
      let magnitude := (inject_Z (Z.pos m) * Qpower 2 e)%Q in
      if sign then (- magnitude)%Q else magnitude
  | _ => 0%Q
  end.

(** Lines 73 and 82-97, given the two lengths and the two flags:
    [len(matched_keywords) / len(expected_keywords)], [score *= 0.5],
    [score += 0.1], [min(score, 1.0)]. *)
Definition final_score (matched expected : Z)
  (has_negative has_citations : bool) : float :=
  let score :=
    if expected >? 0 then div (of_int matched) (of_int expected)
    else of_int 0 in
  let score := if has_negative then mul score (literal 5 10) else score in
  let score := if has_citations then add score (literal 1 10) else score in
  min score (of_int 1).

(** [sum(r['score'] for r in results)] over the scores in order: the
    builtin adds from the left, starting at 0. *)
Fixpoint sum_scores (scores : list float) (acc : float) : float :=
  match scores with
  | [] => acc
  | s :: rest => sum_scores rest (add acc s)
  end.

(** [sum(1 for r in results if r['score'] >= 0.7)] *)
Fixpoint count_passed (scores : list float) (acc : Z) : Z :=
  match scores with
  | [] => acc
  | s :: rest => count_passed rest (if ge s (literal 7 10) then acc + 1 else acc)
  end.

(** Line 150, over the scores of the results. *)
Definition average_of (scores : list float) : Result float :=
  let total := sum_scores scores (of_int 0) in
  if Py.len scores =? 0 then Raise ZeroDivisionError
  else Ok (div total (of_int (Py.len scores))).

(** Line 177, over the scores of the results. *)
Definition pass_rate_of (scores : list float) : Result float :=
  let passed := count_passed scores 0 in
  if Py.len scores =? 0 then Raise ZeroDivisionError
  else Ok (div (of_int passed) (of_int (Py.len scores))).

(** The score 0.7 of a question with 7 of its 10 keywords matched. *)
Definition seven_of_ten : float := final_score 7 10 false false.

End Binary64.

(* ================================================================== *)
(** * Facts about strings *)
(* ================================================================== *)

Module PyFacts.
Import Py.

Lemma append_nil_r (s : string) : s ++ "" = s.
Proof. induction s as [|c s IH]; simpl; [reflexivity | now rewrite IH]. Qed.

Lemma append_assoc (a b c : string) : (a ++ b) ++ c = a ++ b ++ c.
Proof. induction a as [|x a IH]; simpl; [reflexivity | now rewrite IH]. Qed.

(** [String.prefix] finds exactly the strings that start with the needle. *)
Lemma prefix_iff (needle hay : string) :
  String.prefix needle hay = true <-> exists post, hay = needle ++ post.
Proof.
  revert hay. induction needle as [|c needle IH]; intros hay.
  - destruct hay; simpl; split; eauto.
  - destruct hay as [|d hay]; simpl.
    + split; [discriminate | intros [post H]; discriminate].
    + destruct (ascii_dec c d) as [->|Hne].
      * rewrite IH. split; intros [post H]; exists post.
        -- now rewrite H.
        -- now injection H.
      * split; [discriminate | intros [post H]; injection H; congruence].
Qed.

(** [needle in hay] holds exactly when [hay] splits around [needle]. *)
Lemma str_in_iff (needle hay : string) :
  str_in needle hay = true <->
  exists pre post, hay = pre ++ needle ++ post.
Proof.
  induction hay as [|c hay IH]; cbn [str_in]; rewrite orb_true_iff, prefix_iff.
  - split.
    + intros [[post H]|H]; [|discriminate]. now exists "", post.
    + intros [pre [post H]]. left. destruct pre; [now exists post | discriminate].
  - rewrite IH. split.
    + intros [[post H]|[pre [post H]]].
      * now exists "", post.
      * exists (String c pre), post. simpl. now rewrite H.
    + intros [pre [post H]]. destruct pre as [|d pre]; simpl in H.
      * left. now exists post.
      * right. injection H as _ H. now exists pre, post.
Qed.

Lemma lower_app (a b : string) : lower (a ++ b) = lower a ++ lower b.
Proof. induction a as [|c a IH]; simpl; [reflexivity | now rewrite IH]. Qed.

Lemma lower_char_idem (c : ascii) : lower_char (lower_char c) = lower_char c.
Proof.
  destruct c as [[] [] [] [] [] [] [] []]; reflexivity.
Qed.

Lemma lower_idem (s : string) : lower (lower s) = lower s.
Proof.
  induction s as [|c s IH]; simpl; [reflexivity|].
  now rewrite lower_char_idem, IH.
Qed.

(** A split of the lower-cased string comes from a split of the string. *)
Lemma lower_split (s x y : string) :
  lower s = x ++ y ->
  exists s1 s2, s = s1 ++ s2 /\ lower s1 = x /\ lower s2 = y.
Proof.
  revert x. induction s as [|c s IH]; intros x H; simpl in H.
  - destruct x; [|discriminate]. simpl in H. subst y. now exists "", "".
  - destruct x as [|d x]; simpl in H.
    + subst y. now exists "", (String c s).
    + injection H as Hc H. destruct (IH _ H) as [s1 [s2 [-> [H1 H2]]]].
      exists (String c s1), s2. simpl. now rewrite Hc, H1.
Qed.

Lemma str_in_lower_iff (k a : string) :
  str_in (lower k) (lower a) = true <-> occurs_ci k a.
Proof.
  unfold occurs_ci.
  rewrite str_in_iff. split.
  - intros [x [y H]].
    destruct (lower_split _ _ _ H) as [pre [rest [-> [_ H2]]]].
    destruct (lower_split _ _ _ H2) as [mid [post [-> [H3 _]]]].
    now exists pre, mid, post.
  - intros [pre [mid [post [-> H]]]].
    exists (lower pre), (lower post). now rewrite !lower_app, H.
Qed.

(** Literal containment survives lower-casing. *)
Lemma str_in_lower_mono (phrase a : string) :
  str_in phrase a = true -> str_in (lower phrase) (lower a) = true.
Proof.
  rewrite !str_in_iff. intros [pre [post ->]].
  exists (lower pre), (lower post). now rewrite !lower_app.
Qed.

End PyFacts.

(* ================================================================== *)
(** * Facts about scoring *)
(* ================================================================== *)

Module ScoreFacts.
Import Py PyFacts Score.

Lemma len_pos_iff {A : Type} (xs : list A) : (len xs >? 0) = true <-> xs <> [].
Proof.
  unfold len. destruct xs; simpl; split; try congruence; try discriminate.
  intros _. apply Z.gtb_lt. lia.
Qed.

Local Open Scope Q_scope.

Lemma matched_In (expected : list string) (text k : string) :
  In k (matched_keywords expected (lower text)) <->
  In k expected /\ occurs_ci k text.
Proof.
  unfold matched_keywords. now rewrite filter_In, str_in_lower_iff.
Qed.

Lemma matched_le (expected : list string) (answer : string) :
  (List.length (matched_keywords expected answer) <= List.length expected)%nat.
Proof. apply filter_length_le. Qed.

(** Python's quotient of two lengths is the rational with that numerator
    and denominator. *)
Lemma true_div_len (m n : nat) :
  n <> 0%nat ->
  true_div (Z.of_nat m) (Z.of_nat n) == Z.of_nat m # Pos.of_nat n.
Proof.
  intros Hn. unfold true_div. rewrite (Qmake_Qdiv (Z.of_nat m) (Pos.of_nat n)).
  replace (Z.pos (Pos.of_nat n)) with (Z.of_nat n); [reflexivity|].
  now rewrite <- (positive_nat_Z (Pos.of_nat n)), Nat2Pos.id.
Qed.

Lemma base_score_nonempty (expected : list string) (answer : string) :
  expected <> [] ->
  base_score expected answer ==
  Z.of_nat (List.length (matched_keywords expected answer))
  # Pos.of_nat (List.length expected).
Proof.
  intros Hne. unfold base_score.
  destruct (len expected >? 0)%Z eqn:E.
  - apply true_div_len. destruct expected; simpl; congruence.
  - apply len_pos_iff in Hne. congruence.
Qed.

Lemma base_score_empty (answer : string) : base_score [] answer = 0%Q.
Proof. reflexivity. Qed.

Lemma base_score_bounds (expected : list string) (answer : string) :
  0 <= base_score expected answer <= 1.
Proof.
  destruct expected as [|k ks].
  - rewrite base_score_empty. lra.
  - rewrite base_score_nonempty by discriminate.
    pose proof (matched_le (k :: ks) answer) as Hle.
    set (m := List.length _) in *. set (n := List.length (k :: ks)) in *.
    assert (Hn : (0 < n)%nat) by (subst n; simpl; lia).
    assert (Hp : Z.pos (Pos.of_nat n) = Z.of_nat n)
      by (rewrite <- (positive_nat_Z (Pos.of_nat n)), Nat2Pos.id; lia).
    unfold Qle; cbn [Qnum Qden]. rewrite Hp. lia.
Qed.

Lemma min_le_r (x y : Q) : Py.min x y <= y.
Proof.
  unfold Py.min. destruct (Qle_bool x y) eqn:E; simpl.
  - now apply Qle_bool_iff.
  - lra.
Qed.

Lemma min_spec (x y : Q) :
  (x <= y /\ Py.min x y = x) \/ (y < x /\ Py.min x y = y).
Proof.
  unfold Py.min. destruct (Qle_bool x y) eqn:E; simpl.
  - left. split; [now apply Qle_bool_iff | reflexivity].
  - right. split; [|reflexivity]. apply Qnot_le_lt. intros H.
    apply Qle_bool_iff in H. congruence.
Qed.

Lemma penalise_bounds (answer : string) (x : Q) :
  0 <= x <= 1 -> 0 <= penalise answer x <= 1.
Proof. unfold penalise. destruct (has_negative answer); lra. Qed.

Lemma reward_nonneg (data : AskBody) (x : Q) : 0 <= x -> 0 <= reward data x.
Proof. unfold reward. destruct (has_citations data); lra. Qed.

Lemma final_score_bounds (expected : list string) (data : AskBody) :
  0 <= final_score expected data <= 1.
Proof.
  unfold final_score.
  pose proof (base_score_bounds expected (lower (answer_text data))) as Hb.
  apply (penalise_bounds (lower (answer_text data))) in Hb.
  destruct Hb as [Hb _]. apply (reward_nonneg data) in Hb.
  split; [|apply min_le_r].
  destruct (min_spec (reward data (penalise (lower (answer_text data))
             (base_score expected (lower (answer_text data))))) 1)
    as [[_ ->]|[_ ->]]; lra.
Qed.

(** A phrase that occurs in the answer, whatever its case, is seen. *)
Lemma has_negative_intro (phrase text : string) :
  In phrase negative_phrases ->
  occurs_ci phrase text ->
  has_negative (lower text) = true.
Proof.
  intros Hin Hocc. unfold has_negative, any. apply existsb_exists.
  exists phrase. split; [assumption|].
  apply str_in_lower_iff in Hocc.
  replace (lower phrase) with phrase in Hocc; [assumption|].
  unfold negative_phrases in Hin. simpl in Hin.
  repeat (destruct Hin as [<-|Hin]; [reflexivity|]). contradiction.
Qed.

Lemma has_negative_elim (answer : string) :
  has_negative answer = true ->
  exists phrase, In phrase negative_phrases /\ str_in phrase answer = true.
Proof. unfold has_negative, any. now rewrite existsb_exists. Qed.

Lemma has_citations_iff (data : AskBody) :
  has_citations data = true <-> citation_list data <> [].
Proof. apply len_pos_iff. Qed.

End ScoreFacts.

(* ================================================================== *)
(** * Facts about [evaluate_question] *)
(* ================================================================== *)

Module QuestionFacts.
Import Py PyFacts Score ScoreFacts.
Local Open Scope Q_scope.

Lemma evaluate_question_responded
  (env : Env) (q : Question) (docs : list string) (tr : Trace)
  (response : Response) :
  ask env (asks_so_far tr) (question q) = Responded response ->
  evaluate_question env q docs tr =
  ((tr ++ [PostAsk (question q)])%list, Ok (outcome_of q response)).
Proof.
  intros H. unfold evaluate_question, bind, post_ask, http. rewrite H.
  unfold outcome_of. now destruct (negb (status_code response =? 200)%Z).
Qed.

Lemma evaluate_question_failed
  (env : Env) (q : Question) (docs : list string) (tr : Trace) (e : Exn) :
  ask env (asks_so_far tr) (question q) = Failed e ->
  evaluate_question env q docs tr =
  ((tr ++ [PostAsk (question q)])%list, Raise e).
Proof.
  intros H. unfold evaluate_question, bind, post_ask, http. now rewrite H.
Qed.

Lemma outcome_of_200 (q : Question) (response : Response) :
  status_code response = 200%Z ->
  outcome_of q response = scored_result q (json response).
Proof. intros H. unfold outcome_of. now rewrite H. Qed.

Lemma outcome_of_not_200 (q : Question) (response : Response) :
  status_code response <> 200%Z ->
  outcome_of q response = error_result q response.
Proof.
  intros H. unfold outcome_of.
  destruct (status_code response =? 200)%Z eqn:E; [|reflexivity].
  apply Z.eqb_eq in E. contradiction.
Qed.

Lemma outcome_of_score (q : Question) (response : Response) :
  exists s, dict_get (outcome_of q response) "score" = Some (VFloat s) /\
            0 <= s <= 1.
Proof.
  unfold outcome_of. destruct (negb (status_code response =? 200)%Z).
  - exists 0. split; [reflexivity | lra].
  - eexists. split; [reflexivity | apply final_score_bounds].
Qed.

Lemma outcome_of_id (q : Question) (response : Response) :
  dict_get (outcome_of q response) "question_id" = Some (id q).
Proof.
  unfold outcome_of. now destruct (negb (status_code response =? 200)%Z).
Qed.

(** ** The claims about one question *)

#[global] Instance min_compat : Proper (Qeq ==> Qeq ==> Qeq) Py.min.
Proof.
  intros x x' Hx y y' Hy. unfold Py.min.
  destruct (Qle_bool x y) eqn:E, (Qle_bool x' y') eqn:E'; simpl; try assumption.
  - apply Qle_bool_iff in E. rewrite Hx, Hy in E.
    apply Qle_bool_iff in E. congruence.
  - apply Qle_bool_iff in E'. rewrite <- Hx, <- Hy in E'.
    apply Qle_bool_iff in E'. congruence.
Qed.

Lemma str_in_occurs_ci (phrase text : string) :
  str_in phrase text = true -> occurs_ci phrase text.
Proof.
  intros H. apply str_in_iff in H. destruct H as [pre [post ->]].
  now exists pre, phrase, post.
Qed.

(** C2. For a successful answer the score returned is the base score,
    halved first if a negative phrase was seen, then raised by 0.1 if
    there are citations, then capped at 1. Whenever one of the four
    fixed phrases occurs in the answer (in any letter case) the score is
    base * 0.5 + bonus, the cap being out of reach; with half of the
    keywords matched and citations present that is 0.35. *)
Theorem C2_penalty_before_bonus
  (env : Env) (q : Question) (docs : list string) (tr : Trace)
  (response : Response) :
  ask env (asks_so_far tr) (question q) = Responded response ->
  status_code response = 200%Z ->
  let data := json response in
  let text := answer_text data in
  let base := base_score (expected_keywords q) (lower text) in
  let bonus := if has_citations data then 1 # 10 else 0 in
  exists result score,
    snd (evaluate_question env q docs tr) = Ok result /\
    dict_get result "score" = Some (VFloat score) /\
    score ==
      Py.min ((if has_negative (lower text) then base * (1 # 2) else base)
              + bonus) 1 /\
    (forall phrase,
        In phrase negative_phrases -> occurs_ci phrase text ->
        score == base * (1 # 2) + bonus) /\
    (forall phrase,
        In phrase negative_phrases -> occurs_ci phrase text ->
        citation_list data <> [] -> base == 1 # 2 ->
        score == 35 # 100).
Proof.
  intros Hask H200. cbv zeta.
  rewrite (evaluate_question_responded _ _ _ _ _ Hask), outcome_of_200 by assumption.
  eexists. eexists. split; [reflexivity|]. split; [reflexivity|].
  pose proof (base_score_bounds (expected_keywords q)
                (lower (answer_text (json response)))) as Hb.
  set (base := base_score _ _) in *.
  assert (Hgen : final_score (expected_keywords q) (json response) ==
                 Py.min ((if has_negative (lower (answer_text (json response)))
                          then base * (1 # 2) else base)
                         + (if has_citations (json response) then 1 # 10 else 0)) 1).
  { unfold final_score, reward, penalise. fold base.
    apply min_compat; [|reflexivity].
    destruct (has_citations (json response)); lra. }
  assert (Hneg : forall phrase,
             In phrase negative_phrases ->
             occurs_ci phrase (answer_text (json response)) ->
             final_score (expected_keywords q) (json response) ==
             base * (1 # 2) + (if has_citations (json response) then 1 # 10 else 0)).
  { intros phrase Hin Hocc. rewrite Hgen.
    rewrite (has_negative_intro _ _ Hin Hocc).
    destruct (min_spec (base * (1 # 2) +
                (if has_citations (json response) then 1 # 10 else 0)) 1)
      as [[_ ->]|[Hlt _]]; [reflexivity|].
    destruct (has_citations (json response)); lra. }
  split; [exact Hgen|]. split; [exact Hneg|].
  intros phrase Hin Hocc Hcit Hhalf. rewrite (Hneg _ Hin Hocc).
  apply has_citations_iff in Hcit. rewrite Hcit, Hhalf. reflexivity.
Qed.

(** C2, on the sample answer: "California" matched, "Not Found" seen,
    one citation: 0.5 * 0.5 + 0.1 = 0.35. *)
Lemma C2_witness :
  exists result score,
    snd (evaluate_question Sample.env_up Sample.q_law ["doc-1"] []) = Ok result /\
    dict_get result "score" = Some (VFloat score) /\
    score == 35 # 100.
Proof.
  destruct (C2_penalty_before_bonus Sample.env_up Sample.q_law ["doc-1"] []
              Sample.ok_response eq_refl eq_refl)
    as [result [score [Hr [Hs [_ [_ H]]]]]].
  exists result, score. split; [exact Hr|]. split; [exact Hs|].
  apply (H "not found"%string).
  - simpl. auto.
  - apply str_in_lower_iff. reflexivity.
  - discriminate.
  - reflexivity.
Defined.

(** C7. Whatever the response to the request (any status, any answer,
    any keywords, with or without negative phrases and citations), the
    dictionary returned holds a score between 0 and 1. *)
Theorem C7_score_in_unit_interval
  (env : Env) (q : Question) (docs : list string) (tr : Trace)
  (response : Response) :
  ask env (asks_so_far tr) (question q) = Responded response ->
  exists result score,
    snd (evaluate_question env q docs tr) = Ok result /\
    dict_get result "score" = Some (VFloat score) /\
    0 <= score <= 1.
Proof.
  intros Hask. rewrite (evaluate_question_responded _ _ _ _ _ Hask).
  destruct (outcome_of_score q response) as [s [Hs Hb]].
  now exists (outcome_of q response), s.
Qed.

Lemma C7_witness :
  exists result score,
    snd (evaluate_question Sample.env_up Sample.q_law ["doc-1"] []) = Ok result /\
    dict_get result "score" = Some (VFloat score) /\
    0 <= score <= 1.
Proof.
  exact (C7_score_in_unit_interval Sample.env_up Sample.q_law ["doc-1"] []
           Sample.ok_response eq_refl).
Defined.

(** C6, as the code has it. A request answered with status 200 yields a
    dictionary with exactly the six fields question_id, question,
    answer, score, matched_keywords and has_citations; a request
    answered with any other status yields one with exactly question_id,
    score and reason. Both carry question_id and score. *)
Theorem C6_result_fields
  (env : Env) (q : Question) (docs : list string) (tr : Trace)
  (response : Response) :
  ask env (asks_so_far tr) (question q) = Responded response ->
  exists result,
    snd (evaluate_question env q docs tr) = Ok result /\
    (status_code response = 200%Z -> keys result = result_fields) /\
    (status_code response <> 200%Z -> keys result = error_fields) /\
    has_key result "question_id" = true /\
    has_key result "score" = true.
Proof.
  intros Hask. rewrite (evaluate_question_responded _ _ _ _ _ Hask).
  exists (outcome_of q response). split; [reflexivity|].
  split; [intros H; now rewrite outcome_of_200|].
  split; [intros H; now rewrite outcome_of_not_200|].
  unfold outcome_of. now destruct (negb (status_code response =? 200)%Z).
Qed.

Lemma C6_witness :
  exists result,
    snd (evaluate_question Sample.env_up Sample.q_cap ["doc-1"]
           [PostAsk (question Sample.q_law)]) = Ok result /\
    keys result = error_fields.
Proof.
  destruct (C6_result_fields Sample.env_up Sample.q_cap ["doc-1"]
              [PostAsk (question Sample.q_law)] Sample.server_error eq_refl)
    as [result [Hr [_ [H _]]]].
  exists result. split; [exact Hr|]. apply H. discriminate.
Defined.

(** C6, as the claim has it, fails: the dictionary returned for a
    status 500 response has no "question", "answer", "matched_keywords"
    or "has_citations". *)
Lemma C6_counterexample :
  ~ (forall (env : Env) (q : Question) (docs : list string) (tr : Trace)
            (result : dict),
        snd (evaluate_question env q docs tr) = Ok result ->
        forall field, In field result_fields -> has_key result field = true).
Proof.
  intros H.
  specialize (H Sample.env_up Sample.q_cap ["doc-1"]
                [PostAsk (question Sample.q_law)] _ eq_refl
                "answer"%string).
  simpl in H. assert (false = true) by (apply H; auto). discriminate.
Qed.

(** C10. The outcome of [evaluate_question], trace and result (score,
    matched keywords and citation flag with it), does not depend on the
    document ids it is given; so neither does the outcome of the loop
    that calls it for every question. *)
Theorem C10_document_ids_ignored
  (env : Env) (docs docs' : list string) :
  (forall q tr,
      evaluate_question env q docs tr = evaluate_question env q docs' tr) /\
  (forall eval_set acc tr,
      eval_loop env eval_set docs acc tr = eval_loop env eval_set docs' acc tr).
Proof.
  assert (Hq : forall q tr,
             evaluate_question env q docs tr = evaluate_question env q docs' tr)
    by reflexivity.
  split; [exact Hq|].
  induction eval_set as [|q rest IH]; intros acc tr; simpl; [reflexivity|].
  unfold bind. rewrite Hq.
  destruct (evaluate_question env q docs' tr) as [tr' [result|code|e]];
    [apply IH | reflexivity | reflexivity].
Qed.

End QuestionFacts.

(* ================================================================== *)
(** * Facts about a run *)
(* ================================================================== *)

Module RunFacts.
Import Py PyFacts Score ScoreFacts QuestionFacts.
Local Open Scope list_scope.

Lemma asked_app (a b : Trace) : asked (a ++ b) = (asked a ++ asked b)%list.
Proof.
  induction a as [|e a IH]; [reflexivity|].
  destruct e; simpl; now rewrite IH.
Qed.

Lemma written_app (a b : Trace) :
  written (a ++ b) = (written a ++ written b)%list.
Proof.
  induction a as [|e a IH]; [reflexivity|].
  destruct e; simpl; now rewrite IH.
Qed.

Lemma asked_requests (eval_set : list Question) :
  asked (requests_for eval_set) = map question eval_set.
Proof. induction eval_set as [|q qs IH]; simpl; [reflexivity | now rewrite IH]. Qed.

Lemma written_requests (eval_set : list Question) :
  written (requests_for eval_set) = [].
Proof. induction eval_set as [|q qs IH]; simpl; [reflexivity | exact IH]. Qed.

Lemma silent_nil : silent [].
Proof. now split. Qed.

Lemma silent_app (a b : Trace) : silent a -> silent b -> silent (a ++ b).
Proof.
  intros [Ha Ha'] [Hb Hb']. split.
  - now rewrite asked_app, Ha, Hb.
  - now rewrite written_app, Ha', Hb'.
Qed.

(** ** The set-up phase *)

(** Opening the test files never fails and is silent. *)
Lemma read_test_files_spec (env : Env) (paths : list string) :
  forall (files : list (string * string)) (tr : Trace),
  exists ext files',
    read_test_files env paths files tr = ((tr ++ ext)%list, Ok files') /\
    silent ext.
Proof.
  induction paths as [|path rest IH]; intros files tr; simpl.
  - exists [], files. rewrite app_nil_r. split; [reflexivity | apply silent_nil].
  - unfold bind at 1, try_except, bind at 1, open_read, bind at 1, emit.
    destruct (fs_read env path) as [content|]; simpl;
      match goal with
      | |- context [read_test_files env rest ?f ?t] =>
          destruct (IH f t) as [ext [files' [-> Hs]]]
      end;
      exists (OpenRead path :: ext), files';
      rewrite <- app_assoc; simpl; (split; [reflexivity|]);
      destruct Hs as [Ha Hw]; split; simpl; assumption.
Qed.

(** The upload never calls [sys.exit], and is silent. *)
Lemma upload_spec (env : Env) (tr : Trace) :
  exists ext r,
    upload_test_documents env tr = ((tr ++ ext)%list, r) /\
    silent ext /\ (forall code, r <> SysExit code).
Proof.
  unfold upload_test_documents, bind at 1.
  destruct (read_test_files_spec env test_files [] tr) as [ext [files [-> Hs]]].
  destruct (is_nil files).
  - exists ext, (Ok []). repeat split; try apply Hs; discriminate.
  - unfold bind, http.
    destruct (ingest env files) as [response|e].
    + destruct (ingest_status response =? 200);
        eexists (ext ++ [PostIngest (map fst files)])%list, _;
        rewrite <- app_assoc;
        (split; [reflexivity|]);
        (split; [apply silent_app; [assumption | now split] | discriminate]).
    + exists (ext ++ [PostIngest (map fst files)])%list, (Raise e).
      rewrite <- app_assoc. split; [reflexivity|].
      split; [apply silent_app; [assumption | now split] | discriminate].
Qed.

(** The health check leaves [Ok] only after a 200. *)
Lemma health_check_spec (env : Env) (tr : Trace) :
  exists r,
    health_check env tr = (tr ++ [GetHealthz], r) /\
    match healthz env with
    | Responded status => r = if status =? 200 then Ok tt else SysExit 1
    | Failed ConnectionError => r = SysExit 1
    | Failed e => r = Raise e
    end.
Proof.
  unfold health_check, try_except, bind, http.
  destruct (healthz env) as [status|e].
  - destruct (status =? 200); simpl; eexists; split; reflexivity.
  - destruct e; simpl; eexists; split; reflexivity.
Qed.

Lemma health_check_failed (env : Env) (tr : Trace) :
  healthz env <> Responded 200 ->
  exists r, health_check env tr = (tr ++ [GetHealthz], r) /\
            exit_status r = 1 /\
            (healthz env = Failed ConnectionError \/
             (exists status, healthz env = Responded status) -> r = SysExit 1).
Proof.
  intros Hne. destruct (health_check_spec env tr) as [r [Hr Hcase]].
  exists r. split; [assumption|].
  destruct (healthz env) as [status|e].
  - destruct (status =? 200) eqn:E.
    + apply Z.eqb_eq in E. subst. contradiction.
    + subst r. now split.
  - destruct e; subst r; (split; [reflexivity|]);
      intros [H|[status H]]; congruence.
Qed.

(** ** The loop over the questions *)

(** However the requests end, the loop asks the questions in order, one
    request each, and stops at the first request that raises; when it
    returns, it has appended one result per question. *)
Lemma eval_loop_spec (env : Env) (docs : list string) (eval_set : list Question) :
  forall (acc : list dict) (tr : Trace),
  exists k r,
    eval_loop env eval_set docs acc tr =
      (tr ++ requests_for (firstn k eval_set), r) /\
    ((k = List.length eval_set /\
      exists new, r = Ok (acc ++ new) /\ Forall2 result_for eval_set new) \/
     (exists e n q, r = Raise e /\ ask env n q = Failed e)).
Proof.
  induction eval_set as [|q rest IH]; intros acc tr; simpl.
  - exists O, (Ok acc). simpl. rewrite app_nil_r. split; [reflexivity|].
    left. split; [reflexivity|]. exists []. rewrite app_nil_r. now split.
  - unfold bind at 1.
    destruct (ask env (asks_so_far tr) (question q)) as [response|e] eqn:Hask.
    + rewrite (evaluate_question_responded _ _ _ _ _ Hask).
      destruct (IH (acc ++ [outcome_of q response]) (tr ++ [PostAsk (question q)]))
        as [k [r [-> Hr]]].
      exists (S k), r. simpl. rewrite <- app_assoc. split; [reflexivity|].
      destruct Hr as [[-> [new [-> Hall]]]|[e [n [q' [-> Hfail]]]]].
      * left. split; [reflexivity|]. exists (outcome_of q response :: new).
        rewrite <- app_assoc. split; [reflexivity|].
        constructor; [now exists response | assumption].
      * right. now exists e, n, q'.
    + rewrite (evaluate_question_failed _ _ _ _ _ Hask).
      exists 1%nat, (Raise e). simpl. split; [reflexivity|]. right.
      now exists e, (asks_so_far tr), (question q).
Qed.

(** When the service answers every request, the loop runs to its end. *)
Lemma eval_loop_total (env : Env) (docs : list string) (eval_set : list Question) :
  (forall n q, exists response, ask env n q = Responded response) ->
  forall (acc : list dict) (tr : Trace),
  exists new,
    eval_loop env eval_set docs acc tr =
      (tr ++ requests_for eval_set, Ok (acc ++ new)) /\
    Forall2 result_for eval_set new.
Proof.
  intros Hsvc. induction eval_set as [|q rest IH]; intros acc tr; simpl.
  - exists []. rewrite !app_nil_r. now split.
  - unfold bind at 1.
    destruct (Hsvc (asks_so_far tr) (question q)) as [response Hask].
    rewrite (evaluate_question_responded _ _ _ _ _ Hask).
    destruct (IH (acc ++ [outcome_of q response]) (tr ++ [PostAsk (question q)]))
      as [new [-> Hall]].
    exists (outcome_of q response :: new). rewrite <- !app_assoc.
    split; [reflexivity|]. constructor; [now exists response | assumption].
Qed.

Lemma result_for_has_score (q : Question) (r : dict) :
  result_for q r -> exists x, has_score r x /\ (0 <= x <= 1)%Q.
Proof. intros [response ->]. apply outcome_of_score. Qed.

Lemma result_for_id (q : Question) (r : dict) :
  result_for q r -> dict_get r "question_id" = Some (id q).
Proof. intros [response ->]. apply outcome_of_id. Qed.

Lemma results_have_scores (eval_set : list Question) (rs : list dict) :
  Forall2 result_for eval_set rs ->
  exists scores, Forall2 has_score rs scores /\
                 Forall (fun x => (0 <= x <= 1)%Q) scores.
Proof.
  induction 1 as [|q r qs rs Hr _ [scores [IH1 IH2]]].
  - exists []. now split.
  - destruct (result_for_has_score _ _ Hr) as [x [Hx Hb]].
    exists (x :: scores). split; constructor; assumption.
Qed.

(** ** The aggregate figures *)

Lemma fold_left_Qplus (xs : list Q) (acc : Q) :
  (fold_left Qplus xs acc == acc + fold_right Qplus 0 xs)%Q.
Proof.
  revert acc. induction xs as [|x xs IH]; intros acc; simpl.
  - ring.
  - rewrite IH. ring.
Qed.

(** [sum] reads every score, writes nothing and adds from the left. *)
Lemma sum_scores_spec (rs : list dict) (xs : list Q) :
  Forall2 has_score rs xs ->
  forall (acc : Q) (tr : Trace),
    sum_scores rs acc tr = (tr, Ok (fold_left Qplus xs acc)).
Proof.
  induction 1 as [|r x rs xs Hr _ IH]; intros acc tr; simpl; [reflexivity|].
  unfold bind, get_score. rewrite Hr. simpl. apply IH.
Qed.

Lemma count_passed_spec (rs : list dict) (xs : list Q) :
  Forall2 has_score rs xs ->
  forall (acc : Z) (tr : Trace),
    count_passed rs acc tr =
    (tr, Ok (acc + Z.of_nat (List.length
                   (filter (fun x => Qle_bool (7 # 10) x) xs)))).
Proof.
  induction 1 as [|r x rs xs Hr _ IH]; intros acc tr; simpl.
  - now rewrite Z.add_0_r.
  - unfold bind, get_score. rewrite Hr. simpl. rewrite IH. unfold ge.
    destruct (Qle_bool (7 # 10) x); simpl; do 2 f_equal; lia.
Qed.

Lemma average_of_spec (rs : list dict) (xs : list Q) :
  Forall2 has_score rs xs -> (len rs =? 0) = false ->
  forall tr : Trace,
    average_of rs tr =
    (tr, Ok (fold_left Qplus xs 0 / inject_Z (len rs))%Q).
Proof.
  intros Hxs Hlen tr. unfold average_of, bind.
  rewrite (sum_scores_spec _ _ Hxs). unfold div_by_len. now rewrite Hlen.
Qed.

Lemma pass_rate_of_spec (rs : list dict) (xs : list Q) :
  Forall2 has_score rs xs -> (len rs =? 0) = false ->
  forall tr : Trace,
    pass_rate_of rs tr =
    (tr, Ok (inject_Z (Z.of_nat (List.length
                 (filter (fun x => Qle_bool (7 # 10) x) xs)))
             / inject_Z (len rs))%Q).
Proof.
  intros Hxs Hlen tr. unfold pass_rate_of, bind.
  rewrite (count_passed_spec _ _ Hxs). unfold div_by_len. now rewrite Hlen.
Qed.

Lemma bind_ok {A B : Type} (m : M A) (k : A -> M B) (tr tr' : Trace) (a : A) :
  m tr = (tr', Ok a) -> bind m k tr = k a tr'.
Proof. intros H. unfold bind. now rewrite H. Qed.

Lemma bind_exit {A B : Type} (m : M A) (k : A -> M B) (tr tr' : Trace) (c : Z) :
  m tr = (tr', SysExit c) -> bind m k tr = (tr', SysExit c).
Proof. intros H. unfold bind. now rewrite H. Qed.

Lemma bind_raise {A B : Type} (m : M A) (k : A -> M B) (tr tr' : Trace) (e : Exn) :
  m tr = (tr', Raise e) -> bind m k tr = (tr', Raise e).
Proof. intros H. unfold bind. now rewrite H. Qed.

Lemma Forall2_length_eq {A B : Type} (R : A -> B -> Prop) (l : list A) (l' : list B) :
  Forall2 R l l' -> List.length l = List.length l'.
Proof. induction 1; simpl; congruence. Qed.

(** ** The whole run *)

(** A run from the empty trace either ends without having written the
    results file, with exit status 1 and for one of five reasons, or it
    went through the set-up, asked every question of a non-empty set in
    order, printed the grade and wrote the summary as its last act. *)
Lemma run_evaluation_spec (env : Env) :
  exists tr r,
    run_evaluation env [] = (tr, r) /\
    ((written tr = [] /\ exit_status r = 1 /\ abort_cause env) \/
     (exists setup eval_set rs xs,
        r = Ok tt /\
        healthz env = Responded 200 /\
        eval_file env = Some eval_set /\ eval_set <> [] /\
        silent setup /\
        Forall2 result_for eval_set rs /\
        Forall2 has_score rs xs /\
        tr = setup ++ requests_for eval_set ++
             [PrintGrade (grade (fold_left Qplus xs 0 / inject_Z (len rs))%Q);
              WriteResults
                {| average_score := (fold_left Qplus xs 0 / inject_Z (len rs))%Q;
                   total_questions := len rs;
                   pass_rate :=
                     (inject_Z (Z.of_nat (List.length
                        (filter (fun x => Qle_bool (7 # 10) x) xs)))
                      / inject_Z (len rs))%Q;
                   results := rs |}])).
Proof.
  unfold run_evaluation, abort_cause.
  destruct (health_check_spec env []) as [r0 [Hh Hcase]]. simpl in Hh.
  destruct r0 as [[]|c|e].
  2: { rewrite (bind_exit _ _ _ _ _ Hh). eexists _, _. split; [reflexivity|].
       left. split; [reflexivity|].
       destruct (healthz env) as [st|[]]; try discriminate;
         [destruct (st =? 200) eqn:E; try discriminate|];
         inversion Hcase; (split; [reflexivity|]); left; try discriminate.
       intros H; inversion H; subst; discriminate. }
  2: { rewrite (bind_raise _ _ _ _ _ Hh). eexists _, _. split; [reflexivity|].
       left. split; [reflexivity|]. split; [reflexivity|]. left.
       destruct (healthz env) as [st|x]; [|discriminate].
       destruct (st =? 200); discriminate. }
  assert (H200 : healthz env = Responded 200).
  { destruct (healthz env) as [st|[]]; try discriminate.
    destruct (st =? 200) eqn:E; [|discriminate]. apply Z.eqb_eq in E. now subst. }
  clear Hcase. rewrite (bind_ok _ _ _ _ _ Hh).
  destruct (upload_spec env [GetHealthz]) as [ext [r1 [Hu [[Ha Hw] Hne]]]].
  destruct r1 as [doc_ids|c|e].
  2: { now destruct (Hne c). }
  2: { rewrite (bind_raise _ _ _ _ _ Hu). eexists _, _. split; [reflexivity|].
       left. split; [now rewrite written_app, Hw|]. split; [reflexivity|].
       right; left. intros d ds. rewrite Hu. discriminate. }
  rewrite (bind_ok _ _ _ _ _ Hu).
  destruct doc_ids as [|d ds]; cbn [is_nil].
  { eexists _, _. split; [reflexivity|]. left.
    split; [now rewrite written_app, Hw|]. split; [reflexivity|].
    right; left. intros d ds. rewrite Hu. discriminate. }
  unfold load_eval_set. unfold bind at 1, bind at 1, emit.
  destruct (eval_file env) as [eval_set|] eqn:Hfile.
  2: { eexists _, _. split; [reflexivity|]. left.
       split; [now rewrite !written_app, Hw|]. split; [reflexivity|]. auto. }
  unfold ret at 1. cbv beta.
  destruct (eval_loop_spec env (d :: ds) eval_set []
              (([GetHealthz] ++ ext) ++ [LoadEvalSet]))
    as [k [r2 [Hl Hr2]]].
  destruct Hr2 as [[-> [rs [-> Hall]]]|[e [n [q [-> Hfail]]]]].
  2: { rewrite (bind_raise _ _ _ _ _ Hl). eexists _, _. split; [reflexivity|].
       left. split; [now rewrite !written_app, Hw, written_requests|].
       split; [reflexivity|]. do 4 right. now exists n, q, e. }
  rewrite firstn_all in Hl. change ([] ++ rs) with rs in Hl.
  rewrite (bind_ok _ _ _ _ _ Hl).
  destruct (results_have_scores _ _ Hall) as [xs [Hxs _]].
  destruct (len rs =? 0) eqn:Hlen.
  { rewrite (bind_raise _ _ _ _ ZeroDivisionError)
      by (unfold average_of;
          rewrite (bind_ok _ _ _ _ _ (sum_scores_spec _ _ Hxs _ _));
          unfold div_by_len; now rewrite Hlen).
    eexists _, _. split; [reflexivity|]. left.
    split; [now rewrite !written_app, Hw, written_requests|].
    split; [reflexivity|]. do 3 right; left. f_equal.
    apply Z.eqb_eq in Hlen. unfold len in Hlen.
    apply Forall2_length_eq in Hall. destruct eval_set; [reflexivity|].
    simpl in Hall. rewrite <- Hall in Hlen. simpl in Hlen. lia. }
  rewrite (bind_ok _ _ _ _ _ (average_of_spec _ _ Hxs Hlen _)).
  unfold bind at 1, emit.
  rewrite (bind_ok _ _ _ _ _ (pass_rate_of_spec _ _ Hxs Hlen _)).
  unfold emit.
  eexists _, _. split; [reflexivity|]. right.
  exists ((GetHealthz :: ext) ++ [LoadEvalSet]), eval_set, rs, xs.
  split; [reflexivity|]. split; [assumption|]. split; [reflexivity|].
  split.
  { intros ->. inversion Hall. subst. discriminate. }
  split.
  { split; [rewrite asked_app | rewrite written_app]; simpl;
      [now rewrite Ha | now rewrite Hw]. }
  split; [assumption|]. split; [assumption|].
  simpl. rewrite <- !app_assoc. reflexivity.
Qed.

(** What a written summary tells about the run that wrote it. *)
Lemma run_written (env : Env) (s : Summary) :
  In s (written (fst (run_evaluation env []))) ->
  exists setup eval_set xs,
    snd (run_evaluation env []) = Ok tt /\
    healthz env = Responded 200 /\
    eval_file env = Some eval_set /\ eval_set <> [] /\
    silent setup /\
    Forall2 result_for eval_set (results s) /\
    Forall2 has_score (results s) xs /\
    average_score s = (fold_left Qplus xs 0 / inject_Z (len (results s)))%Q /\
    total_questions s = len (results s) /\
    pass_rate s =
      (inject_Z (Z.of_nat (List.length
                   (filter (fun x => Qle_bool (7 # 10) x) xs)))
       / inject_Z (len (results s)))%Q /\
    fst (run_evaluation env []) =
      setup ++ requests_for eval_set ++
      [PrintGrade (grade (average_score s)); WriteResults s].
Proof.
  destruct (run_evaluation_spec env) as [tr [r [-> Hcase]]]. simpl.
  destruct Hcase as [[Hw _]|[setup [eval_set [rs [xs H]]]]].
  - rewrite Hw. contradiction.
  - destruct H as [-> [H200 [Hfile [Hne [Hs [Hall [Hxs ->]]]]]]].
    rewrite !written_app, (proj2 Hs), written_requests. simpl.
    intros [<-|[]]. exists setup, eval_set, xs. simpl. repeat split; auto; apply Hs.
Qed.

(** With a healthy service, a document, a non-empty question file and a
    service that answers every request, the run writes its summary. *)
Lemma run_completes (env : Env) :
  ~ abort_cause env ->
  exists s, snd (run_evaluation env []) = Ok tt /\
            written (fst (run_evaluation env [])) = [s].
Proof.
  intros Hno. destruct (run_evaluation_spec env) as [tr [r [-> Hcase]]]. simpl.
  destruct Hcase as [[_ [_ Hc]]|[setup [eval_set [rs [xs H]]]]]; [contradiction|].
  destruct H as [-> [_ [_ [_ [Hs [_ [_ ->]]]]]]].
  eexists. split; [reflexivity|].
  rewrite !written_app, (proj2 Hs), written_requests. reflexivity.
Qed.

Lemma no_abort_cause (env : Env) (eval_set : list Question) :
  healthz env = Responded 200 ->
  (exists d ds, snd (upload_test_documents env [GetHealthz]) = Ok (d :: ds)) ->
  eval_file env = Some eval_set -> eval_set <> [] ->
  (forall n q, exists response, ask env n q = Responded response) ->
  ~ abort_cause env.
Proof.
  intros H200 [d [ds Hup]] Hfile Hne Hsvc [H|[H|[H|[H|[n [q [e H]]]]]]].
  - contradiction.
  - now apply (H d ds).
  - congruence.
  - congruence.
  - destruct (Hsvc n q) as [response Hr]. congruence.
Qed.

(** An unhealthy service ends the run at once. *)
Lemma run_unhealthy (env : Env) :
  healthz env <> Responded 200 ->
  exists r, run_evaluation env [] = ([GetHealthz], r) /\
            exit_status r = 1 /\
            (healthz env = Failed ConnectionError \/
             (exists status, healthz env = Responded status) -> r = SysExit 1).
Proof.
  intros Hne. destruct (health_check_failed env [] Hne) as [r [Hr [He Hx]]].
  simpl in Hr. unfold run_evaluation.
  destruct r as [u|c|e]; [discriminate| |].
  - rewrite (bind_exit _ _ _ _ _ Hr). exists (SysExit c). auto.
  - rewrite (bind_raise _ _ _ _ _ Hr). exists (Raise e). auto.
Qed.

(** An upload that brings back no document id ends the run. *)
Lemma run_no_documents (env : Env) :
  healthz env = Responded 200 ->
  snd (upload_test_documents env [GetHealthz]) = Ok [] ->
  run_evaluation env [] =
  (fst (upload_test_documents env [GetHealthz]), SysExit 1).
Proof.
  intros H200 Hup. unfold run_evaluation.
  destruct (health_check_spec env []) as [r [Hr Hcase]].
  rewrite H200 in Hcase. simpl in Hcase, Hr. subst r.
  rewrite (bind_ok _ _ _ _ _ Hr).
  destruct (upload_test_documents env [GetHealthz]) as [tr1 r1] eqn:E.
  simpl in Hup. subst r1. now rewrite (bind_ok _ _ _ _ _ E).
Qed.

(** ** The claims about a run *)

(** C4. A run whose health probe fails (connection refused, any status
    but 200, or any other exception) ends with exit status 1 right after
    the probe, and a run whose upload brings back no document ends with
    [sys.exit(1)]; neither asks a question or writes the results file. A
    request answered with a status other than 200 makes
    [evaluate_question] return a result with score 0.0 and a reason
    string; with a healthy service, a document and a non-empty question
    set, the run completes and writes one summary whatever the statuses
    of the answers. A summary, when written, is the last event of the
    run and comes after the requests for all questions. *)
Theorem C4_abort_or_complete (env : Env) :
  let run := run_evaluation env [] in
  (healthz env <> Responded 200 ->
   exit_status (snd run) = 1 /\ written (fst run) = [] /\ asked (fst run) = [] /\
   (healthz env = Failed ConnectionError \/
    (exists status, healthz env = Responded status) -> snd run = SysExit 1)) /\
  (healthz env = Responded 200 ->
   snd (upload_test_documents env [GetHealthz]) = Ok [] ->
   snd run = SysExit 1 /\ written (fst run) = [] /\ asked (fst run) = []) /\
  (forall q docs tr response,
      ask env (asks_so_far tr) (question q) = Responded response ->
      status_code response <> 200 ->
      exists result reason,
        evaluate_question env q docs tr =
          (tr ++ [PostAsk (question q)], Ok result) /\
        dict_get result "score" = Some (VFloat 0) /\
        dict_get result "reason" = Some (VStr reason)) /\
  (forall eval_set,
      healthz env = Responded 200 ->
      (exists d ds, snd (upload_test_documents env [GetHealthz]) = Ok (d :: ds)) ->
      eval_file env = Some eval_set -> eval_set <> [] ->
      (forall n q, exists response, ask env n q = Responded response) ->
      exists s, snd run = Ok tt /\ written (fst run) = [s]) /\
  (forall s,
      In s (written (fst run)) ->
      exists before eval_set,
        fst run = before ++ [WriteResults s] /\
        written before = [] /\
        eval_file env = Some eval_set /\
        asked before = map question eval_set /\
        Forall2 result_for eval_set (results s)).
Proof.
  cbv zeta. split; [|split; [|split; [|split]]].
  - intros Hne. destruct (run_unhealthy env Hne) as [r [-> [He Hx]]]. simpl. auto.
  - intros H200 Hup. rewrite (run_no_documents env H200 Hup). simpl.
    destruct (upload_spec env [GetHealthz]) as [ext [r [-> [[Ha Hw] _]]]]. simpl.
    now rewrite Ha, Hw.
  - intros q docs tr response Hask Hst.
    rewrite (evaluate_question_responded _ _ _ _ _ Hask), outcome_of_not_200
      by assumption.
    eexists _, _. split; [reflexivity|]. split; reflexivity.
  - intros eval_set H200 Hup Hfile Hne Hsvc.
    apply run_completes. eapply no_abort_cause; eassumption.
  - intros s Hin.
    destruct (run_written env s Hin)
      as [setup [eval_set [xs [_ [_ [Hfile [_ [Hs [Hall [_ [_ [_ [_ ->]]]]]]]]]]]]].
    exists (setup ++ requests_for eval_set ++ [PrintGrade (grade (average_score s))]),
           eval_set.
    split; [now rewrite <- !app_assoc|].
    split; [now rewrite !written_app, (proj2 Hs), written_requests|].
    split; [assumption|]. split; [|assumption].
    rewrite !asked_app, (proj1 Hs), asked_requests. simpl. apply app_nil_r.
Qed.

(** C4 on the sample worlds: service down, no document on disk, and a
    complete run in which the second answer is a 500. *)
Lemma C4_witness :
  (exit_status (snd (run_evaluation Sample.env_down [])) = 1 /\
   written (fst (run_evaluation Sample.env_down [])) = []) /\
  (snd (run_evaluation Sample.env_no_docs []) = SysExit 1 /\
   written (fst (run_evaluation Sample.env_no_docs [])) = []) /\
  (exists s, snd (run_evaluation Sample.env_up []) = Ok tt /\
             written (fst (run_evaluation Sample.env_up [])) = [s]).
Proof.
  split; [|split].
  - destruct (C4_abort_or_complete Sample.env_down) as [H _].
    destruct H as [H1 [H2 _]]; [discriminate|]. now split.
  - destruct (C4_abort_or_complete Sample.env_no_docs) as [_ [H _]].
    destruct H as [H1 [H2 _]]; [reflexivity | reflexivity |]. now split.
  - destruct (C4_abort_or_complete Sample.env_up) as [_ [_ [_ [H _]]]].
    apply (H [Sample.q_law; Sample.q_cap]).
    + reflexivity.
    + now exists "doc-1"%string, [].
    + reflexivity.
    + discriminate.
    + intros [|n] q; eexists; reflexivity.
Defined.

Lemma results_ids (eval_set : list Question) (rs : list dict) :
  Forall2 result_for eval_set rs ->
  forall i q,
    nth_error eval_set i = Some q ->
    exists r, nth_error rs i = Some r /\
              dict_get r "question_id" = Some (id q).
Proof.
  induction 1 as [|q0 r0 qs rs Hr _ IH]; intros i q Hi.
  - destruct i; discriminate.
  - destruct i as [|i]; simpl in *.
    + injection Hi as <-. exists r0. split; [reflexivity|].
      now apply result_for_id.
    + now apply IH.
Qed.

(** C9. Whenever the loop over a question set returns, it has put one
    request per question, in the order of the set and nothing else; the
    results are as many as the questions, and the i-th result carries
    the id of the i-th question. The summary a run writes holds such a
    result sequence for the loaded question file, and the requests of
    the whole run are those for its questions, in order. *)
Theorem C9_results_follow_questions (env : Env) :
  (forall docs eval_set tr tr' rs,
      eval_loop env eval_set docs [] tr = (tr', Ok rs) ->
      tr' = tr ++ requests_for eval_set /\
      List.length rs = List.length eval_set /\
      forall i q,
        nth_error eval_set i = Some q ->
        exists r, nth_error rs i = Some r /\
                  dict_get r "question_id" = Some (id q)) /\
  (forall s,
      In s (written (fst (run_evaluation env []))) ->
      exists eval_set,
        eval_file env = Some eval_set /\
        asked (fst (run_evaluation env [])) = map question eval_set /\
        List.length (results s) = List.length eval_set /\
        forall i q,
          nth_error eval_set i = Some q ->
          exists r, nth_error (results s) i = Some r /\
                    dict_get r "question_id" = Some (id q)).
Proof.
  split.
  - intros docs eval_set tr tr' rs Hloop.
    destruct (eval_loop_spec env docs eval_set [] tr) as [k [r [Hl Hr]]].
    rewrite Hloop in Hl. injection Hl as -> <-.
    destruct Hr as [[-> [new [[= ->] Hall]]]|[e [n [q [[=] _]]]]].
    rewrite firstn_all. split; [reflexivity|].
    split; [symmetry; eapply Forall2_length_eq; eassumption|].
    now apply results_ids.
  - intros s Hin.
    destruct (run_written env s Hin)
      as [setup [eval_set [xs [_ [_ [Hfile [_ [Hs [Hall [_ [_ [_ [_ ->]]]]]]]]]]]]].
    exists eval_set. split; [assumption|].
    split.
    { rewrite !asked_app, (proj1 Hs), asked_requests. simpl. apply app_nil_r. }
    split; [symmetry; eapply Forall2_length_eq; eassumption|].
    now apply results_ids.
Qed.

(** C9 on the sample run. *)
Lemma C9_witness :
  exists s eval_set,
    written (fst (run_evaluation Sample.env_up [])) = [s] /\
    eval_file Sample.env_up = Some eval_set /\
    asked (fst (run_evaluation Sample.env_up [])) = map question eval_set /\
    List.length (results s) = List.length eval_set.
Proof.
  eexists.
  destruct (proj2 (C9_results_follow_questions Sample.env_up) _
              (or_introl eq_refl))
    as [eval_set [H1 [H2 [H3 _]]]].
  exists eval_set. split; [reflexivity|]. now repeat split.
Defined.

Lemma mean_agrees (rs : list dict) (xs : list Q) :
  Forall2 has_score rs xs ->
  (fold_left Qplus xs 0 / inject_Z (len rs) == SpecWords.arithmetic_mean xs)%Q.
Proof.
  intros Hxs. unfold SpecWords.arithmetic_mean, len.
  rewrite (Forall2_length_eq _ _ _ Hxs), fold_left_Qplus.
  now rewrite Qplus_0_l.
Qed.

Lemma pass_fraction_agrees (rs : list dict) (xs : list Q) :
  Forall2 has_score rs xs ->
  (inject_Z (Z.of_nat (List.length (filter (fun x => Qle_bool (7 # 10) x) xs)))
   / inject_Z (len rs))%Q = SpecWords.pass_fraction xs.
Proof.
  intros Hxs. unfold SpecWords.pass_fraction, len.
  now rewrite (Forall2_length_eq _ _ _ Hxs).
Qed.

Lemma ge_false_lt (x t : Q) : Qle_bool t x = false <-> (x < t)%Q.
Proof.
  split.
  - intros H. apply Qnot_le_lt. intros Hle. apply Qle_bool_iff in Hle. congruence.
  - intros H. destruct (Qle_bool t x) eqn:E; [|reflexivity].
    apply Qle_bool_iff in E. lra.
Qed.

(** C8. The grade depends on the average score alone, through the fixed
    thresholds 0.8, 0.7 and 0.5; each grade string is a marker followed
    by the name of the band. It is the grade of the reported average
    that a run prints. *)
Theorem C8_grade_bands (avg : Q) :
  ((8 # 10 <= avg)%Q -> grade avg = "🌟 EXCELLENT") /\
  ((7 # 10 <= avg < 8 # 10)%Q -> grade avg = "✅ GOOD") /\
  ((5 # 10 <= avg < 7 # 10)%Q -> grade avg = "⚠️  FAIR") /\
  ((avg < 5 # 10)%Q -> grade avg = "❌ NEEDS IMPROVEMENT") /\
  (exists marker, grade avg = (marker ++ SpecWords.band avg)%string) /\
  (forall avg', (avg == avg')%Q -> grade avg = grade avg') /\
  (forall env s,
      In s (written (fst (run_evaluation env []))) ->
      In (PrintGrade (grade (average_score s))) (fst (run_evaluation env []))).
Proof.
  unfold grade, SpecWords.band, ge.
  split; [|split; [|split; [|split; [|split; [|split]]]]].
  - intros H. apply Qle_bool_iff in H. now rewrite H.
  - intros [H1 H2]. apply Qle_bool_iff in H1. apply ge_false_lt in H2.
    now rewrite H1, H2.
  - intros [H1 H2].
    assert (H3 : Qle_bool (8 # 10) avg = false) by (apply ge_false_lt; lra).
    apply Qle_bool_iff in H1. apply ge_false_lt in H2.
    now rewrite H1, H2, H3.
  - intros H.
    assert (H2 : Qle_bool (7 # 10) avg = false) by (apply ge_false_lt; lra).
    assert (H3 : Qle_bool (8 # 10) avg = false) by (apply ge_false_lt; lra).
    apply ge_false_lt in H. now rewrite H, H2, H3.
  - destruct (Qle_bool (8 # 10) avg); [now exists "🌟 "%string|].
    destruct (Qle_bool (7 # 10) avg); [now exists "✅ "%string|].
    destruct (Qle_bool (5 # 10) avg);
      [now exists "⚠️  "%string | now exists "❌ "%string].
  - intros avg' Heq.
    now rewrite !(Qleb_comp _ _ (Qeq_refl _) _ _ Heq).
  - intros env s Hin.
    destruct (run_written env s Hin)
      as [setup [eval_set [xs [_ [_ [_ [_ [_ [_ [_ [_ [_ [_ ->]]]]]]]]]]]]].
    rewrite !in_app_iff. right. right. now left.
Qed.

Lemma C8_witness :
  grade (85 # 100) = "🌟 EXCELLENT" /\ grade (75 # 100) = "✅ GOOD" /\
  grade (1 # 2) = "⚠️  FAIR" /\ grade (175 # 1000) = "❌ NEEDS IMPROVEMENT".
Proof.
  split; [|split; [|split]].
  - apply (C8_grade_bands (85 # 100)). unfold Qle. simpl. lia.
  - apply (C8_grade_bands (75 # 100)). unfold Qle, Qlt. simpl. lia.
  - apply (C8_grade_bands (1 # 2)). unfold Qle, Qlt. simpl. lia.
  - apply (C8_grade_bands (175 # 1000)). unfold Qlt. simpl. lia.
Defined.

End RunFacts.

(* ================================================================== *)
(** * Facts about the field extractor *)
(* ================================================================== *)

Module ExtractionFacts.
Import Extraction.
Local Open Scope list_scope.

Lemma length_append (a b : string) :
  String.length (a ++ b)%string = (String.length a + String.length b)%nat.
Proof. induction a as [|c a IH]; simpl; [reflexivity | now rewrite IH]. Qed.

Lemma length_substring (n m : nat) (s : string) :
  (String.length (substring n m s) <= m)%nat.
Proof.
  revert n m. induction s as [|c s IH]; intros n m.
  - destruct n, m; simpl; lia.
  - destruct n as [|n]; simpl.
    + destruct m as [|m]; simpl; [lia|]. specialize (IH O m). lia.
    + apply IH.
Qed.

(** Truncation bounds the text the scanners see. *)
Lemma truncate_bounded (P : Patterns) (text : string) :
  (String.length (truncate P text) <= threshold P)%nat.
Proof.
  unfold truncate.
  destruct (String.length text <=? threshold P)%nat eqn:E.
  - now apply Nat.leb_le.
  - destruct (keep_tail P).
    + rewrite length_append.
      pose proof (length_substring 0 (threshold P - threshold P / 2) text).
      pose proof (length_substring (String.length text - threshold P / 2)
                    (threshold P / 2) text).
      assert (threshold P / 2 <= threshold P)%nat
        by (apply Nat.Div0.div_le_upper_bound; lia).
      lia.
    + apply length_substring.
Qed.

(** A text within the threshold is scanned whole. *)
Lemma truncate_short (P : Patterns) (text : string) :
  (String.length text <= threshold P)%nat -> truncate P text = text.
Proof.
  intros H. unfold truncate. apply Nat.leb_le in H. now rewrite H.
Qed.

Lemma dedup_fresh (norm : string -> string) (names seen : list string) :
  forall x, In x (map norm (dedup norm seen names)) -> ~ In x seen.
Proof.
  revert seen. induction names as [|name rest IH]; intros seen x; simpl.
  - contradiction.
  - destruct (existsb (String.eqb (norm name)) seen) eqn:E.
    + apply IH.
    + simpl. intros [<-|Hin].
      * intros Hin. assert (existsb (String.eqb (norm name)) seen = true);
          [|congruence].
        apply existsb_exists. exists (norm name). split; [assumption|].
        apply String.eqb_refl.
      * intros Hseen. apply (IH _ _ Hin). now right.
Qed.

Lemma dedup_NoDup (norm : string -> string) (names seen : list string) :
  NoDup (map norm (dedup norm seen names)).
Proof.
  revert seen. induction names as [|name rest IH]; intros seen; simpl.
  - constructor.
  - destruct (existsb (String.eqb (norm name)) seen); [apply IH|].
    simpl. constructor; [|apply IH].
    intros Hin. apply (dedup_fresh _ _ _ _ Hin). now left.
Qed.

(** Nothing is invented and nothing new is lost: the normalized names
    kept or already seen are those scanned or already seen. *)
Lemma dedup_covers (norm : string -> string) (names seen : list string) :
  forall x,
    In x (seen ++ map norm names) <->
    In x (seen ++ map norm (dedup norm seen names)).
Proof.
  revert seen. induction names as [|name rest IH]; intros seen x; simpl.
  - reflexivity.
  - destruct (existsb (String.eqb (norm name)) seen) eqn:E.
    + rewrite <- IH, !in_app_iff. simpl. split; [|tauto].
      intros [H|[<-|H]]; auto. left.
      apply existsb_exists in E. destruct E as [y [Hy Heq]].
      apply String.eqb_eq in Heq. now rewrite Heq.
    + specialize (IH (norm name :: seen) x).
      rewrite !in_app_iff in *. simpl in *. tauto.
Qed.

Lemma make_date_valid (y m d : Z) (date : Date) :
  make_date y m d = Some date -> valid_date date.
Proof.
  unfold make_date, valid_date.
  destruct ((1 <=? m) && (m <=? 12) && (1 <=? d) && (d <=? 31)) eqn:E;
    [|discriminate].
  intros [= <-]. simpl.
  repeat (apply andb_prop in E; destruct E as [E ?]).
  repeat match goal with H : (_ <=? _) = true |- _ => apply Z.leb_le in H end.
  lia.
Qed.

Ltac date_cases :=
  repeat match goal with
         | |- context [match ?x with _ => _ end] => destruct x
         end;
  intros H; try discriminate; eapply make_date_valid; exact H.

Lemma parse_slash_valid (token : string) (date : Date) :
  parse_slash token = Some date -> valid_date date.
Proof. unfold parse_slash. date_cases. Qed.

Lemma parse_iso_valid (token : string) (date : Date) :
  parse_iso token = Some date -> valid_date date.
Proof. unfold parse_iso. date_cases. Qed.

Lemma parse_long_valid (token : string) (date : Date) :
  parse_long token = Some date -> valid_date date.
Proof. unfold parse_long. date_cases. Qed.

Lemma parse_date_valid (token : string) (date : Date) :
  parse_date token = Some date -> valid_date date.
Proof.
  unfold parse_date.
  destruct (parse_slash token) as [d1|] eqn:E1.
  { intros [= <-]. eapply parse_slash_valid; eassumption. }
  destruct (parse_iso token) as [d2|] eqn:E2.
  { intros [= <-]. eapply parse_iso_valid; eassumption. }
  apply parse_long_valid.
Qed.

(** The three spellings of one day give one date. *)
Example parse_date_three_formats :
  parse_date "01/15/2024" = Some {| year := 2024; month := 1; day := 15 |} /\
  parse_date "2024-01-15" = Some {| year := 2024; month := 1; day := 15 |} /\
  parse_date "January 15, 2024" = Some {| year := 2024; month := 1; day := 15 |}.
Proof. repeat split. Qed.

(** The record built from a non-empty text, field by field. *)
Lemma extract_fields_nonempty (P : Patterns) (c : ascii) (rest : string) :
  let doc := truncate P (String c rest) in
  extract_fields P (String c rest) =
  Got {| parties := match scan_parties P doc with
                    | Got names => dedup (normalize P) [] names
                    | PatternError => []
                    end;
         effective_date := match scan_date_token P doc with
                           | Got (Some token) => parse_date token
                           | _ => None
                           end;
         governing_law := match scan_governing_law P doc with
                          | Got law => law
                          | PatternError => None
                          end;
         liability_cap := match scan_liability_cap P doc with
                          | Got cap => cap
                          | PatternError => None
                          end;
         signatures := match scan_signatures P doc with
                       | Got sigs => sigs
                       | PatternError => []
                       end |}.
Proof.
  cbv zeta. unfold extract_fields.
  unfold extract_parties, extract_effective_date.
  destruct (scan_parties P _), (scan_date_token P _) as [[t|]|],
    (scan_governing_law P _), (scan_liability_cap P _),
    (scan_signatures P _); reflexivity.
Qed.

(** C3. Whatever the scanners do, on every text (the empty one and
    those beyond the truncation threshold included) [extract_fields]
    returns a record and raises nothing; the record is well formed; a
    scanner that fails leaves its own field absent or empty; the empty
    text gives the empty record; and the scanners never see more than
    [threshold] characters. *)
Theorem C3_extract_fields_total (P : Patterns) (text : string) :
  exists f,
    extract_fields P text = Got f /\
    well_formed P f /\
    (text = EmptyString -> f = no_fields) /\
    (text <> EmptyString ->
     let doc := truncate P text in
     (String.length doc <= threshold P)%nat /\
     (scan_parties P doc = PatternError -> parties f = []) /\
     (scan_date_token P doc = PatternError -> effective_date f = None) /\
     (scan_governing_law P doc = PatternError -> governing_law f = None) /\
     (scan_liability_cap P doc = PatternError -> liability_cap f = None) /\
     (scan_signatures P doc = PatternError -> signatures f = [])).
Proof.
  destruct text as [|c text].
  - exists no_fields. split; [reflexivity|].
    split; [|split; [reflexivity | congruence]].
    repeat split; simpl; try constructor; discriminate.
  - rewrite extract_fields_nonempty. cbv zeta.
    set (doc := truncate P (String c text)).
    eexists. split; [reflexivity|]. split; [|split; [discriminate|]].
    + unfold well_formed. simpl. split.
      * destruct (scan_parties P doc); [apply dedup_NoDup | constructor].
      * intros d. destruct (scan_date_token P doc) as [[t|]|];
          try discriminate. apply parse_date_valid.
    + intros _. simpl. split; [apply truncate_bounded|].
      repeat split; intros ->; reflexivity.
Qed.

End ExtractionFacts.

(* ================================================================== *)
(** * Further facts about scoring *)
(* ================================================================== *)

Module ScoreMore.
Import Py PyFacts Score ScoreFacts QuestionFacts.
Local Open Scope Q_scope.

(** The score of a deflecting answer: the cap is out of reach. *)
Lemma final_score_negative (expected : list string) (data : AskBody) :
  has_negative (lower (answer_text data)) = true ->
  final_score expected data ==
  base_score expected (lower (answer_text data)) * (1 # 2) + bonus data.
Proof.
  intros Hneg. unfold final_score, reward, penalise, bonus. rewrite Hneg.
  pose proof (base_score_bounds expected (lower (answer_text data))) as Hb.
  set (base := base_score _ _) in *.
  destruct (has_citations data).
  - destruct (min_spec (base * (1 # 2) + (1 # 10)) 1) as [[_ ->]|[Hlt _]];
      [reflexivity | lra].
  - destruct (min_spec (base * (1 # 2)) 1) as [[_ ->]|[Hlt _]]; lra.
Qed.

(** The score of an answer without negative phrase. *)
Lemma final_score_clean (expected : list string) (data : AskBody) :
  has_negative (lower (answer_text data)) = false ->
  final_score expected data ==
  Py.min (base_score expected (lower (answer_text data)) + bonus data) 1.
Proof.
  intros Hneg. unfold final_score, reward, penalise, bonus. rewrite Hneg.
  apply min_compat; [|reflexivity].
  destruct (has_citations data); lra.
Qed.

Lemma passes_iff (x : Q) : passes x = true <-> 7 # 10 <= x.
Proof. unfold passes, ge. apply Qle_bool_iff. Qed.

Lemma passes_false_iff (x : Q) : passes x = false <-> x < 7 # 10.
Proof.
  unfold passes, ge. split.
  - intros H. apply Qnot_le_lt. intros Hle. apply Qle_bool_iff in Hle. congruence.
  - intros H. destruct (Qle_bool (7 # 10) x) eqn:E; [|reflexivity].
    apply Qle_bool_iff in E. lra.
Qed.

#[global] Instance passes_compat : Proper (Qeq ==> eq) passes.
Proof.
  intros x y Hxy. destruct (passes y) eqn:E.
  - apply passes_iff. apply passes_iff in E. now rewrite Hxy.
  - apply passes_false_iff. apply passes_false_iff in E. now rewrite Hxy.
Qed.

Lemma bonus_cases (data : AskBody) :
  (has_citations data = true /\ bonus data = 1 # 10) \/
  (has_citations data = false /\ bonus data = 0).
Proof. unfold bonus. destruct (has_citations data); auto. Qed.

Lemma fraction_ge (a b : Z) (m n : nat) :
  n <> 0%nat -> (0 < b)%Z ->
  (a # Z.to_pos b <= Z.of_nat m # Pos.of_nat n <->
   (a * Z.of_nat n <= Z.of_nat m * b)%Z).
Proof.
  intros Hn Hb. unfold Qle. cbn [Qnum Qden].
  rewrite Z2Pos.id by assumption.
  replace (Z.pos (Pos.of_nat n)) with (Z.of_nat n); [reflexivity|].
  now rewrite <- (positive_nat_Z (Pos.of_nat n)), Nat2Pos.id.
Qed.

(** A deflecting answer never passes: whatever the keywords and the
    citations, its score is at most 0.6. *)
Theorem deflection_never_passes
  (expected : list string) (data : AskBody) (phrase : string) :
  In phrase negative_phrases ->
  occurs_ci phrase (answer_text data) ->
  final_score expected data <= 6 # 10 /\
  passes (final_score expected data) = false.
Proof.
  intros Hin Hocc.
  pose proof (final_score_negative expected data
                (has_negative_intro _ _ Hin Hocc)) as Hs.
  pose proof (base_score_bounds expected (lower (answer_text data))) as Hb.
  assert (Hle : final_score expected data <= 6 # 10).
  { rewrite Hs. destruct (bonus_cases data) as [[_ ->]|[_ ->]]; lra. }
  split; [assumption|]. apply passes_false_iff. lra.
Qed.

Lemma deflection_never_passes_witness :
  passes (final_score (expected_keywords Sample.q_law) Sample.deflecting) = false.
Proof.
  apply (deflection_never_passes _ Sample.deflecting "not found"%string).
  - simpl. auto.
  - apply str_in_lower_iff. reflexivity.
Defined.

(** When a question passes. With at least one expected keyword, the
    score reaches 0.7 exactly when no negative phrase is seen and the
    matched keywords are at least 70% of the expected ones, or 60% when
    the response has citations. *)
Theorem pass_mark
  (expected : list string) (data : AskBody) :
  expected <> [] ->
  let answer := lower (answer_text data) in
  let matched := Z.of_nat (List.length (matched_keywords expected answer)) in
  let wanted := Z.of_nat (List.length expected) in
  passes (final_score expected data) = true <->
  has_negative answer = false /\
  ((if has_citations data then 6 else 7) * wanted <= 10 * matched)%Z.
Proof.
  intros Hne. cbv zeta.
  pose proof (base_score_nonempty expected (lower (answer_text data)) Hne) as Hbase.
  pose proof (base_score_bounds expected (lower (answer_text data))) as Hb.
  assert (Hn : List.length expected <> 0%nat) by (destruct expected; simpl; congruence).
  destruct (has_negative (lower (answer_text data))) eqn:Hneg.
  - split; [|intros [H _]; discriminate].
    intros Hp. exfalso. apply passes_iff in Hp.
    rewrite (final_score_negative _ _ Hneg) in Hp.
    destruct (bonus_cases data) as [[_ Hbo]|[_ Hbo]]; rewrite Hbo in Hp; lra.
  - rewrite passes_iff, (final_score_clean _ _ Hneg).
    set (base := base_score _ _) in *.
    assert (Hmin : 7 # 10 <= Py.min (base + bonus data) 1 <->
                   7 # 10 <= base + bonus data).
    { destruct (min_spec (base + bonus data) 1) as [[_ ->]|[Hlt ->]];
        [reflexivity | split; intros; lra]. }
    rewrite Hmin.
    destruct (bonus_cases data) as [[-> ->]|[-> ->]].
    + assert (H6 : 7 # 10 <= base + (1 # 10) <-> 6 # 10 <= base)
        by (split; intros; lra).
      rewrite H6, Hbase. change (6 # 10) with (6 # Z.to_pos 10).
      rewrite (fraction_ge 6 10 _ _ Hn) by lia.
      split; [intros H; split; [reflexivity | lia] | intros [_ H]; lia].
    + assert (H7 : 7 # 10 <= base + 0 <-> 7 # 10 <= base)
        by (split; intros; lra).
      rewrite H7, Hbase. change (7 # 10) with (7 # Z.to_pos 10).
      rewrite (fraction_ge 7 10 _ _ Hn) by lia.
      split; [intros H; split; [reflexivity | lia] | intros [_ H]; lia].
Qed.

Lemma pass_mark_witness :
  passes (final_score (expected_keywords Sample.q_law) Worlds.full_marks) = true.
Proof.
  apply (pass_mark (expected_keywords Sample.q_law) Worlds.full_marks).
  - discriminate.
  - split; [reflexivity|]. vm_compute. discriminate.
Defined.

(** With no expected keyword the score is the citation bonus alone, 0.1
    or 0.0: such a question can never pass. *)
Theorem no_keywords_no_pass (data : AskBody) :
  final_score [] data == bonus data /\
  passes (final_score [] data) = false.
Proof.
  assert (H : final_score [] data == bonus data).
  { destruct (has_negative (lower (answer_text data))) eqn:Hneg.
    - rewrite (final_score_negative _ _ Hneg), base_score_empty. lra.
    - rewrite (final_score_clean _ _ Hneg), base_score_empty.
      destruct (min_spec (0 + bonus data) 1) as [[_ ->]|[Hlt _]]; [lra|].
      destruct (bonus_cases data) as [[_ Hb]|[_ Hb]]; rewrite Hb in Hlt; lra. }
  split; [assumption|]. rewrite H. apply passes_false_iff.
  destruct (bonus_cases data) as [[_ ->]|[_ ->]]; lra.
Qed.

Lemma matched_all (expected : list string) (text : string) :
  (forall k, In k expected -> occurs_ci k text) ->
  matched_keywords expected (lower text) = expected.
Proof.
  intros Hall. unfold matched_keywords.
  induction expected as [|k ks IH]; simpl; [reflexivity|].
  assert (Hk : str_in (lower k) (lower text) = true)
    by (apply str_in_lower_iff, Hall; now left).
  rewrite Hk, IH; [reflexivity|]. intros k' Hin. apply Hall. now right.
Qed.

(** The score sees keywords and answer only up to letter case. *)
Theorem score_ignores_case
  (expected expected' : list string) (data data' : AskBody) :
  map lower expected = map lower expected' ->
  lower (answer_text data) = lower (answer_text data') ->
  has_citations data = has_citations data' ->
  final_score expected data = final_score expected' data'.
Proof.
  intros Hk Ha Hc.
  assert (Hlen : List.length expected = List.length expected')
    by (rewrite <- (length_map lower expected), Hk; apply length_map).
  assert (Hm : forall a,
             List.length (matched_keywords expected a) =
             List.length (matched_keywords expected' a)).
  { intros a. unfold matched_keywords.
    rewrite <- (length_map lower (filter _ expected)),
            <- (length_map lower (filter _ expected')).
    f_equal.
    clear Hlen. revert expected' Hk.
    induction expected as [|k ks IH]; intros [|k' ks'] Hk;
      try discriminate; [reflexivity|].
    simpl in Hk. injection Hk as Hk1 Hk2. simpl. rewrite Hk1.
    destruct (str_in (lower k') a); simpl; [rewrite Hk1|];
      now rewrite (IH _ Hk2). }
  unfold final_score, reward, base_score, len.
  now rewrite Ha, Hc, Hlen, Hm.
Qed.

Lemma score_ignores_case_witness :
  final_score ["CALIFORNIA"; "Two Years"]
    {| answer := Some "california, TWO YEARS"; citations := None |} =
  final_score ["california"; "two years"]
    {| answer := Some "California, two years"; citations := None |}.
Proof.
  apply score_ignores_case; reflexivity.
Defined.

Lemma str_in_empty_hay (needle : string) :
  needle <> EmptyString -> str_in needle "" = false.
Proof. destruct needle; [congruence | reflexivity]. Qed.

Lemma lower_nonempty (k : string) : k <> EmptyString -> lower k <> EmptyString.
Proof. destruct k; [congruence | discriminate]. Qed.

(** An empty keyword is matched by every answer, so a question that
    lists one never has base score 0. *)
Theorem empty_keyword_always_matches
  (expected : list string) (answer : string) :
  In EmptyString expected ->
  In EmptyString (matched_keywords expected answer) /\
  0 < base_score expected answer.
Proof.
  intros Hin.
  assert (Hm : In EmptyString (matched_keywords expected answer)).
  { unfold matched_keywords. apply filter_In. split; [assumption|].
    destruct answer; reflexivity. }
  split; [assumption|].
  assert (Hne : expected <> []) by (intros ->; contradiction).
  rewrite (base_score_nonempty _ _ Hne).
  unfold Qlt. cbn [Qnum Qden]. rewrite Z.mul_1_r, Z.mul_0_l.
  destruct (matched_keywords expected answer); [contradiction | simpl; lia].
Qed.

Lemma empty_keyword_always_matches_witness :
  0 < base_score ["California"; ""] "no idea".
Proof.
  apply (empty_keyword_always_matches ["California"; ""%string] "no idea").
  simpl. auto.
Defined.

(** A 200 response without an [answer] key is scored as the empty
    answer: no non-empty keyword is matched, no negative phrase is
    seen, and the score is the citation bonus alone. *)
Theorem missing_answer_scores_bonus
  (expected : list string) (data : AskBody) :
  answer data = None ->
  (forall k, In k expected -> k <> EmptyString) ->
  matched_keywords expected (lower (answer_text data)) = [] /\
  has_negative (lower (answer_text data)) = false /\
  final_score expected data == bonus data.
Proof.
  intros Hnone Hks.
  assert (Htext : lower (answer_text data) = EmptyString)
    by (unfold answer_text; now rewrite Hnone).
  assert (Hm : matched_keywords expected EmptyString = []).
  { unfold matched_keywords. induction expected as [|k ks IH]; [reflexivity|].
    cbn [filter]. rewrite str_in_empty_hay;
      [|apply lower_nonempty, Hks; now left].
    apply IH. intros k' Hin. apply Hks. now right. }
  rewrite Htext. split; [assumption|]. split; [reflexivity|].
  assert (Hneg : has_negative (lower (answer_text data)) = false)
    by now rewrite Htext.
  rewrite (final_score_clean _ _ Hneg), Htext.
  assert (Hbase : base_score expected "" == 0).
  { unfold base_score. rewrite Hm. destruct (len expected >? 0)%Z; [|reflexivity].
    unfold true_div, len. simpl. unfold Qdiv. ring. }
  rewrite Hbase.
  destruct (min_spec (0 + bonus data) 1) as [[_ ->]|[Hlt _]]; [lra|].
  destruct (bonus_cases data) as [[_ Hb]|[_ Hb]]; rewrite Hb in Hlt; lra.
Qed.

Lemma missing_answer_scores_bonus_witness :
  final_score (expected_keywords Sample.q_law) (json Sample.server_error) == 0.
Proof.
  destruct (missing_answer_scores_bonus (expected_keywords Sample.q_law)
              (json Sample.server_error) eq_refl) as [_ [_ H]].
  - intros k [<-|[<-|[]]]; discriminate.
  - rewrite H. reflexivity.
Defined.

End ScoreMore.

(* ================================================================== *)
(** * Further facts about the upload *)
(* ================================================================== *)

Module UploadMore.
Import Py PyFacts RunFacts.
Local Open Scope list_scope.

Lemma str_in_cons_other (c : ascii) (s : string) :
  Ascii.eqb c "/" = false -> str_in "/" (String c s) = str_in "/" s.
Proof.
  intros Hc. cbn [str_in String.prefix].
  destruct (ascii_dec "/" c) as [<-|_]; [discriminate | reflexivity].
Qed.

(** Either the candidate stands because no slash follows, or the result
    is what follows the last slash. *)
Lemma basename_aux_spec (s : string) :
  forall acc : string,
    (basename_aux acc s = acc /\ str_in "/" s = false) \/
    (exists pre, s = (pre ++ "/" ++ basename_aux acc s)%string /\
                 str_in "/" (basename_aux acc s) = false).
Proof.
  induction s as [|c s IH]; intros acc; cbn [basename_aux].
  - left. now split.
  - destruct (Ascii.eqb c "/") eqn:Hc.
    + apply Ascii.eqb_eq in Hc. subst c. right.
      destruct (IH s) as [[Heq Hno]|[pre [Heq Hno]]].
      * exists ""%string. rewrite Heq. now split.
      * exists (String "/" pre). split; [|assumption].
        cbn [append]. f_equal. exact Heq.
    + destruct (IH acc) as [[Heq Hno]|[pre [Heq Hno]]].
      * left. split; [assumption|]. now rewrite str_in_cons_other.
      * right. exists (String c pre). split; [|assumption].
        cbn [append]. f_equal. exact Heq.
Qed.

(** [path.split('/')[-1]] is the path itself when it has no slash, and
    otherwise what follows its last slash: the path is a directory part
    ending in a slash followed by the name, and the name has no slash. *)
Theorem basename_is_last_component (path : string) :
  str_in "/" (basename path) = false /\
  ((str_in "/" path = false /\ basename path = path) \/
   (exists dir, path = (dir ++ "/" ++ basename path)%string)).
Proof.
  unfold basename.
  destruct (basename_aux_spec path path) as [[Heq Hno]|[pre [Heq Hno]]].
  - rewrite Heq. auto.
  - split; [assumption|]. right. now exists pre.
Qed.

Lemma is_nil_payload (env : Env) :
  is_nil (upload_payload env) = is_nil (openable env).
Proof.
  unfold upload_payload, openable, can_open, test_files. simpl.
  destruct (fs_read env "uploads/Sample NDA.pdf"),
           (fs_read env "uploads/NDA.pdf"); reflexivity.
Qed.

Lemma payload_names (env : Env) :
  map fst (upload_payload env) = map basename (openable env).
Proof.
  unfold upload_payload, openable, can_open, test_files. simpl.
  destruct (fs_read env "uploads/Sample NDA.pdf"),
           (fs_read env "uploads/NDA.pdf"); reflexivity.
Qed.

(** The files collected by lines 28-34. *)
Lemma read_test_files_payload (env : Env) (tr : Trace) :
  read_test_files env test_files [] tr =
  (tr ++ map OpenRead test_files, Ok (upload_payload env)).
Proof.
  unfold upload_payload, test_files. simpl.
  unfold bind, try_except, open_read, bind, emit, ret, raise.
  destruct (fs_read env "uploads/Sample NDA.pdf"),
           (fs_read env "uploads/NDA.pdf");
    simpl; now rewrite <- app_assoc.
Qed.

(** The upload, case by case. *)
Lemma upload_cases (env : Env) (tr : Trace) :
  upload_test_documents env tr =
  if is_nil (openable env)
  then (tr ++ map OpenRead test_files, Ok [])
  else
    let posted :=
      tr ++ map OpenRead test_files ++
      [PostIngest (map basename (openable env))] in
    match ingest env (upload_payload env) with
    | Responded response =>
        (posted,
         Ok (if ingest_status response =? 200
             then match document_ids response with
                  | Some doc_ids => doc_ids
                  | None => []
                  end
             else []))
    | Failed e => (posted, Raise e)
    end.
Proof.
  unfold upload_test_documents.
  rewrite (bind_ok _ _ _ _ _ (read_test_files_payload env tr)).
  rewrite <- is_nil_payload, <- payload_names.
  destruct (is_nil (upload_payload env)); [reflexivity|].
  cbv zeta. unfold bind, http, ret.
  destruct (ingest env (upload_payload env)) as [response|e];
    rewrite <- app_assoc; [|reflexivity].
  now destruct (ingest_status response =? 200).
Qed.

(** The upload opens both test files in order, posts once, under their
    base names, exactly those that could be opened, and posts nothing
    at all (returning no document id) when none could. *)
Theorem upload_posts_openable_files (env : Env) (tr : Trace) :
  (openable env = [] ->
   upload_test_documents env tr = (tr ++ map OpenRead test_files, Ok [])) /\
  (openable env <> [] ->
   fst (upload_test_documents env tr) =
   tr ++ map OpenRead test_files ++ [PostIngest (map basename (openable env))]).
Proof.
  rewrite upload_cases. split.
  - intros ->. reflexivity.
  - intros Hne. destruct (openable env); [congruence|]. cbn [is_nil].
    now destruct (ingest env (upload_payload env)).
Qed.

Lemma upload_posts_openable_files_witness :
  fst (upload_test_documents Sample.env_up []) =
  [OpenRead "uploads/Sample NDA.pdf"; OpenRead "uploads/NDA.pdf";
   PostIngest ["NDA.pdf"%string]] /\
  upload_test_documents Sample.env_no_docs [] =
  ([OpenRead "uploads/Sample NDA.pdf"; OpenRead "uploads/NDA.pdf"], Ok []).
Proof.
  split.
  - apply (proj2 (upload_posts_openable_files Sample.env_up [])). discriminate.
  - apply (proj1 (upload_posts_openable_files Sample.env_no_docs [])). reflexivity.
Defined.

(** An upload that is turned away (any status but 200), or accepted
    with no [document_ids] or an empty list of them, ends the run with
    [sys.exit(1)] before the question file is read: no question is
    asked and nothing is written. *)
Theorem rejected_upload_exits (env : Env) (response : IngestResponse) :
  healthz env = Responded 200 ->
  openable env <> [] ->
  ingest env (upload_payload env) = Responded response ->
  ingest_status response <> 200 \/
  document_ids response = None \/ document_ids response = Some [] ->
  run_evaluation env [] =
  ([GetHealthz] ++ map OpenRead test_files ++
   [PostIngest (map basename (openable env))], SysExit 1).
Proof.
  intros H200 Hopen Hresp Hbad.
  assert (Hup : upload_test_documents env [GetHealthz] =
                ([GetHealthz] ++ map OpenRead test_files ++
                 [PostIngest (map basename (openable env))], Ok [])).
  { rewrite upload_cases, Hresp.
    destruct (openable env); [congruence|]. cbn [is_nil]. cbv zeta.
    do 2 f_equal.
    destruct (ingest_status response =? 200) eqn:E; [|reflexivity].
    apply Z.eqb_eq in E.
    destruct Hbad as [H|[->| ->]]; [contradiction | reflexivity | reflexivity]. }
  rewrite (run_no_documents env H200) by now rewrite Hup.
  now rewrite Hup.
Qed.

Lemma rejected_upload_exits_witness :
  snd (run_evaluation Worlds.env_rejected []) = SysExit 1.
Proof.
  rewrite (rejected_upload_exits Worlds.env_rejected
             {| ingest_status := 422; document_ids := None |});
    try reflexivity; [discriminate | left; discriminate].
Defined.

End UploadMore.

(* ================================================================== *)
(** * Further facts about a run *)
(* ================================================================== *)

Module RunMore.
Import Py PyFacts Score ScoreFacts QuestionFacts RunFacts ScoreMore.
Local Open Scope list_scope.

Lemma asks_so_far_asked (tr : Trace) : asks_so_far tr = List.length (asked tr).
Proof.
  unfold asks_so_far. induction tr as [|e tr IH]; [reflexivity|].
  destruct e; simpl; now rewrite ?IH.
Qed.

Lemma asks_so_far_snoc (tr : Trace) (q : string) :
  asks_so_far (tr ++ [PostAsk q]) = S (asks_so_far tr).
Proof.
  rewrite !asks_so_far_asked, asked_app, length_app. simpl. lia.
Qed.

(** After a healthy probe the run is decided by the upload: no
    document, an exception, or the question file and the report. *)
Lemma run_setup (env : Env) (tr1 : Trace) (r1 : Result (list string)) :
  healthz env = Responded 200 ->
  upload_test_documents env [GetHealthz] = (tr1, r1) ->
  run_evaluation env [] =
  match r1 with
  | Ok [] => (tr1, SysExit 1)
  | Ok doc_ids =>
      match eval_file env with
      | Some eval_set => report_phase env eval_set doc_ids (tr1 ++ [LoadEvalSet])
      | None => (tr1 ++ [LoadEvalSet], Raise FileNotFoundError)
      end
  | SysExit code => (tr1, SysExit code)
  | Raise e => (tr1, Raise e)
  end.
Proof.
  intros H200 Hup. unfold run_evaluation.
  destruct (health_check_spec env []) as [r [Hr Hcase]].
  rewrite H200 in Hcase. simpl in Hcase, Hr. subst r.
  rewrite (bind_ok _ _ _ _ _ Hr).
  destruct r1 as [[|d ds]|code|e].
  - now rewrite (bind_ok _ _ _ _ _ Hup).
  - rewrite (bind_ok _ _ _ _ _ Hup). cbn [is_nil].
    unfold load_eval_set, bind at 1, bind at 1, emit.
    destruct (eval_file env); reflexivity.
  - now rewrite (bind_exit _ _ _ _ _ Hup).
  - now rewrite (bind_raise _ _ _ _ _ Hup).
Qed.

(** The aggregate steps leave the trace alone. *)
Lemma get_score_trace (r : dict) (tr : Trace) : fst (get_score r tr) = tr.
Proof.
  unfold get_score. destruct (dict_get r "score") as [v|]; [|reflexivity].
  now destruct (as_number v).
Qed.

Lemma sum_scores_trace (rs : list dict) :
  forall (acc : Q) (tr : Trace), fst (sum_scores rs acc tr) = tr.
Proof.
  induction rs as [|r rs IH]; intros acc tr; simpl; [reflexivity|].
  unfold bind. pose proof (get_score_trace r tr) as H.
  destruct (get_score r tr) as [tr' [x|c|e]]; simpl in H; subst;
    [apply IH | reflexivity | reflexivity].
Qed.

Lemma count_passed_trace (rs : list dict) :
  forall (acc : Z) (tr : Trace), fst (count_passed rs acc tr) = tr.
Proof.
  induction rs as [|r rs IH]; intros acc tr; simpl; [reflexivity|].
  unfold bind. pose proof (get_score_trace r tr) as H.
  destruct (get_score r tr) as [tr' [x|c|e]]; simpl in H; subst;
    [apply IH | reflexivity | reflexivity].
Qed.

Lemma average_of_trace (rs : list dict) (tr : Trace) :
  fst (average_of rs tr) = tr.
Proof.
  unfold average_of, bind. pose proof (sum_scores_trace rs 0%Q tr) as H.
  destruct (sum_scores rs 0%Q tr) as [tr' [x|c|e]]; simpl in H; subst;
    try reflexivity.
  unfold div_by_len. now destruct (len rs =? 0).
Qed.

Lemma pass_rate_of_trace (rs : list dict) (tr : Trace) :
  fst (pass_rate_of rs tr) = tr.
Proof.
  unfold pass_rate_of, bind. pose proof (count_passed_trace rs 0 tr) as H.
  destruct (count_passed rs 0 tr) as [tr' [x|c|e]]; simpl in H; subst;
    try reflexivity.
  unfold div_by_len. now destruct (len rs =? 0).
Qed.

(** Once the loop is over, no further request is made. *)
Lemma report_phase_asked (env : Env) (eval_set : list Question)
  (docs : list string) (tr : Trace) :
  asked (fst (report_phase env eval_set docs tr)) =
  asked (fst (eval_loop env eval_set docs [] tr)).
Proof.
  unfold report_phase, bind at 1.
  destruct (eval_loop env eval_set docs [] tr) as [tr1 [rs|c|e]];
    try reflexivity.
  unfold bind at 1. pose proof (average_of_trace rs tr1) as Ha.
  destruct (average_of rs tr1) as [tr2 [avg|c|e]]; simpl in Ha; subst;
    try reflexivity.
  unfold bind at 1, emit. unfold bind at 1.
  pose proof (pass_rate_of_trace rs (tr1 ++ [PrintGrade (grade avg)])) as Hp.
  destruct (pass_rate_of rs (tr1 ++ [PrintGrade (grade avg)]))
    as [tr3 [rate|c|e]]; simpl in Hp; subst; simpl;
    rewrite ?asked_app; simpl; now rewrite ?app_nil_r.
Qed.

(** The exit status tells whether the results file was written: 0 with
    exactly one summary written, 1 with none. No other status occurs
    and the file is never written twice. *)
Theorem exit_status_tells_summary (env : Env) :
  let run := run_evaluation env [] in
  (exit_status (snd run) = 0 /\ exists s, written (fst run) = [s]) \/
  (exit_status (snd run) = 1 /\ written (fst run) = []).
Proof.
  cbv zeta. destruct (run_evaluation_spec env) as [tr [r [-> Hcase]]]. simpl.
  destruct Hcase as [[Hw [He _]]|[setup [eval_set [rs [xs H]]]]].
  - right. now split.
  - destruct H as [-> [_ [_ [_ [Hs [_ [_ ->]]]]]]]. left.
    split; [reflexivity|]. eexists.
    rewrite !written_app, (proj2 Hs), written_requests. reflexivity.
Qed.

(** A missing question file is only found out after the upload, as a
    [FileNotFoundError]; an empty one drives the average of line 150
    into a [ZeroDivisionError]. Either way the run ends there with no
    request made and nothing written. *)
Theorem question_file_problems (env : Env) (d : string) (ds : list string) :
  healthz env = Responded 200 ->
  snd (upload_test_documents env [GetHealthz]) = Ok (d :: ds) ->
  let uploaded := fst (upload_test_documents env [GetHealthz]) in
  (eval_file env = None ->
   run_evaluation env [] = (uploaded ++ [LoadEvalSet], Raise FileNotFoundError)) /\
  (eval_file env = Some [] ->
   run_evaluation env [] = (uploaded ++ [LoadEvalSet], Raise ZeroDivisionError)) /\
  asked (uploaded ++ [LoadEvalSet]) = [] /\
  written (uploaded ++ [LoadEvalSet]) = [].
Proof.
  intros H200 Hup. cbv zeta.
  destruct (upload_test_documents env [GetHealthz]) as [tr1 r1] eqn:E.
  simpl in Hup. subst r1. simpl.
  pose proof (run_setup env _ _ H200 E) as Hrun. cbv iota in Hrun.
  split; [intros Hfile; now rewrite Hrun, Hfile|].
  split; [intros Hfile; now rewrite Hrun, Hfile|].
  destruct (upload_spec env [GetHealthz]) as [ext [r [Hu [[Ha Hw] _]]]].
  rewrite E in Hu. injection Hu as -> _.
  rewrite !asked_app, !written_app. simpl. rewrite Ha, Hw. now split.
Qed.

Lemma question_file_problems_witness :
  snd (run_evaluation (Worlds.with_questions (Some [])) []) =
    Raise ZeroDivisionError /\
  snd (run_evaluation (Worlds.with_questions None) []) =
    Raise FileNotFoundError.
Proof.
  split.
  - destruct (question_file_problems (Worlds.with_questions (Some []))
                "doc-1" [] eq_refl eq_refl) as [_ [H _]].
    now rewrite H.
  - destruct (question_file_problems (Worlds.with_questions None)
                "doc-1" [] eq_refl eq_refl) as [H _].
    now rewrite H.
Defined.

(** The loop stops at the first request that raises. *)
Lemma eval_loop_fails_at (env : Env) (docs : list string) :
  forall (eval_set : list Question) (acc : list dict) (tr : Trace)
         (k : nat) (qk : Question) (e : Exn),
    nth_error eval_set k = Some qk ->
    (forall i q, (i < k)%nat -> nth_error eval_set i = Some q ->
                 exists r, ask env (asks_so_far tr + i) (question q) = Responded r) ->
    ask env (asks_so_far tr + k) (question qk) = Failed e ->
    eval_loop env eval_set docs acc tr =
    (tr ++ requests_for (firstn (S k) eval_set), Raise e).
Proof.
  induction eval_set as [|q rest IH]; intros acc tr k qk e Hk Hbefore Hfail.
  - destruct k; discriminate.
  - cbn [eval_loop]. destruct k as [|k].
    + simpl in Hk. injection Hk as ->. rewrite Nat.add_0_r in Hfail.
      rewrite (bind_raise _ _ _ _ _ (evaluate_question_failed _ _ _ _ _ Hfail)).
      reflexivity.
    + destruct (Hbefore O q) as [r Hr]; [lia | reflexivity|].
      rewrite Nat.add_0_r in Hr.
      rewrite (bind_ok _ _ _ _ _ (evaluate_question_responded _ _ _ _ _ Hr)).
      rewrite (IH _ (tr ++ [PostAsk (question q)]) k qk e).
      * now rewrite <- app_assoc.
      * exact Hk.
      * intros i q' Hi Hq'. rewrite asks_so_far_snoc.
        destruct (Hbefore (S i) q') as [r' Hr']; [lia | exact Hq'|].
        exists r'. now rewrite Nat.add_succ_comm.
      * rewrite asks_so_far_snoc. now rewrite Nat.add_succ_comm.
Qed.

(** A request to [/ask] that raises is not caught: the run ends with
    that exception, the questions after it are never asked, and no
    results file is written, whatever was answered before. *)
Theorem request_failure_aborts
  (env : Env) (d : string) (ds : list string) (eval_set : list Question)
  (k : nat) (qk : Question) (e : Exn) :
  healthz env = Responded 200 ->
  snd (upload_test_documents env [GetHealthz]) = Ok (d :: ds) ->
  eval_file env = Some eval_set ->
  nth_error eval_set k = Some qk ->
  (forall i q, (i < k)%nat -> nth_error eval_set i = Some q ->
               exists r, ask env i (question q) = Responded r) ->
  ask env k (question qk) = Failed e ->
  snd (run_evaluation env []) = Raise e /\
  asked (fst (run_evaluation env [])) = map question (firstn (S k) eval_set) /\
  written (fst (run_evaluation env [])) = [].
Proof.
  intros H200 Hup Hfile Hk Hbefore Hfail.
  destruct (upload_test_documents env [GetHealthz]) as [tr1 r1] eqn:E.
  simpl in Hup. subst r1.
  rewrite (run_setup env _ _ H200 E), Hfile.
  destruct (upload_spec env [GetHealthz]) as [ext [r [Hu [[Ha Hw] _]]]].
  rewrite E in Hu. injection Hu as -> _.
  assert (H0 : asks_so_far (([GetHealthz] ++ ext) ++ [LoadEvalSet]) = O).
  { rewrite asks_so_far_asked, !asked_app. simpl. now rewrite Ha. }
  unfold report_phase.
  rewrite (bind_raise _ _ _ _ e
             (eval_loop_fails_at env (d :: ds) eval_set [] _ k qk e Hk
                ltac:(now rewrite H0) ltac:(now rewrite H0))).
  cbn [fst snd]. split; [reflexivity|].
  rewrite !asked_app, !written_app, asked_requests, written_requests.
  rewrite Ha, Hw. split; reflexivity.
Qed.

Lemma request_failure_aborts_witness :
  snd (run_evaluation Worlds.env_drops []) = Raise ConnectionError /\
  asked (fst (run_evaluation Worlds.env_drops [])) =
    [question Sample.q_law; question Sample.q_cap] /\
  written (fst (run_evaluation Worlds.env_drops [])) = [].
Proof.
  apply (request_failure_aborts Worlds.env_drops "doc-1" []
           [Sample.q_law; Sample.q_cap] 1 Sample.q_cap ConnectionError);
    try reflexivity.
  intros [|i] q Hi Hq; [|lia]. eexists. reflexivity.
Defined.

(** ** Runs that complete *)

(** From the end of the loop to the results file. *)
Lemma report_phase_completes
  (env : Env) (eval_set : list Question) (docs : list string)
  (tr tr' : Trace) (rs : list dict) (xs : list Q) :
  eval_loop env eval_set docs [] tr = (tr', Ok rs) ->
  Forall2 has_score rs xs -> rs <> [] ->
  report_phase env eval_set docs tr =
  (tr' ++ [PrintGrade (grade (fold_left Qplus xs 0 / inject_Z (len rs))%Q);
           WriteResults
             {| average_score := (fold_left Qplus xs 0 / inject_Z (len rs))%Q;
                total_questions := len rs;
                pass_rate :=
                  (inject_Z (Z.of_nat (List.length
                     (filter (fun x => Qle_bool (7 # 10) x) xs)))
                   / inject_Z (len rs))%Q;
                results := rs |}], Ok tt).
Proof.
  intros Hloop Hxs Hne.
  assert (Hlen : (len rs =? 0) = false).
  { apply Z.eqb_neq. unfold len. destruct rs; [congruence | simpl; lia]. }
  unfold report_phase.
  rewrite (bind_ok _ _ _ _ _ Hloop).
  rewrite (bind_ok _ _ _ _ _ (average_of_spec _ _ Hxs Hlen _)).
  unfold bind at 1, emit.
  rewrite (bind_ok _ _ _ _ _ (pass_rate_of_spec _ _ Hxs Hlen _)).
  unfold emit. now rewrite <- app_assoc.
Qed.

(** When every request is answered by a response with property [P], the
    loop returns one result per question, each built from such a
    response. *)
Lemma eval_loop_answered (env : Env) (docs : list string) (P : Response -> Prop) :
  (forall n q, exists r, ask env n q = Responded r /\ P r) ->
  forall (eval_set : list Question) (acc : list dict) (tr : Trace),
  exists new,
    eval_loop env eval_set docs acc tr =
      (tr ++ requests_for eval_set, Ok (acc ++ new)) /\
    Forall2 (fun q r => exists response, P response /\ r = outcome_of q response)
            eval_set new.
Proof.
  intros Hsvc. induction eval_set as [|q rest IH]; intros acc tr; simpl.
  - exists []. rewrite !app_nil_r. now split.
  - destruct (Hsvc (asks_so_far tr) (question q)) as [response [Hask HP]].
    rewrite (bind_ok _ _ _ _ _ (evaluate_question_responded _ _ _ _ _ Hask)).
    destruct (IH (acc ++ [outcome_of q response]) (tr ++ [PostAsk (question q)]))
      as [new [-> Hall]].
    exists (outcome_of q response :: new). rewrite <- !app_assoc.
    split; [reflexivity|]. constructor; [now exists response | assumption].
Qed.

Lemma errors_score_zero (qs : list Question) (rs : list dict) :
  Forall2 (fun q r => exists response,
               status_code response <> 200 /\ r = outcome_of q response)
          qs rs ->
  Forall (fun r => has_score r 0%Q) rs.
Proof.
  induction 1 as [|q r qs rs [response [Hst ->]] _ IH]; constructor;
    [|assumption].
  now rewrite outcome_of_not_200.
Qed.

Lemma zeros_have_score (rs : list dict) :
  Forall (fun r => has_score r 0%Q) rs ->
  Forall2 has_score rs (map (fun _ => 0%Q) rs).
Proof. induction 1; simpl; constructor; assumption. Qed.

Lemma sum_zeros {A : Type} (l : list A) :
  (fold_left Qplus (map (fun _ => 0) l) 0 == 0)%Q.
Proof.
  rewrite fold_left_Qplus. induction l as [|a l IH]; simpl; [ring|].
  rewrite Qplus_0_l in IH. rewrite IH. ring.
Qed.

Lemma no_zero_passes {A : Type} (l : list A) :
  filter (fun x => Qle_bool (7 # 10) x) (map (fun _ => 0%Q) l) = [].
Proof. induction l as [|a l IH]; simpl; [reflexivity | exact IH]. Qed.

Lemma grade_of_zero (avg : Q) : (avg == 0)%Q -> grade avg = "❌ NEEDS IMPROVEMENT".
Proof.
  intros H. unfold grade, ge.
  now rewrite !(Qleb_comp _ _ (Qeq_refl _) _ _ H).
Qed.

(** Low scores do not change the exit status: when every request is
    answered with a status other than 200, the run still completes
    normally and writes a summary, with average 0, pass rate 0, one
    result per question and the lowest grade. *)
Theorem failing_service_still_completes
  (env : Env) (d : string) (ds : list string) (eval_set : list Question) :
  healthz env = Responded 200 ->
  snd (upload_test_documents env [GetHealthz]) = Ok (d :: ds) ->
  eval_file env = Some eval_set -> eval_set <> [] ->
  (forall n q, exists r, ask env n q = Responded r /\ status_code r <> 200) ->
  exists s,
    run_evaluation env [] =
      (fst (upload_test_documents env [GetHealthz]) ++ [LoadEvalSet] ++
       requests_for eval_set ++
       [PrintGrade "❌ NEEDS IMPROVEMENT"; WriteResults s], Ok tt) /\
    (average_score s == 0)%Q /\ (pass_rate s == 0)%Q /\
    total_questions s = len eval_set /\
    List.length (results s) = List.length eval_set.
Proof.
  intros H200 Hup Hfile Hne Hsvc.
  destruct (upload_test_documents env [GetHealthz]) as [tr1 r1] eqn:E.
  simpl in Hup. subst r1. cbn [fst].
  rewrite (run_setup env _ _ H200 E), Hfile.
  destruct (eval_loop_answered env (d :: ds) _ Hsvc eval_set []
              (tr1 ++ [LoadEvalSet])) as [rs [Hloop Hall]].
  change ([] ++ rs) with rs in Hloop.
  assert (Hlen : List.length eval_set = List.length rs)
    by (eapply Forall2_length_eq; eassumption).
  assert (Hrs : rs <> []).
  { intros ->. destruct eval_set; [congruence | discriminate]. }
  pose proof (errors_score_zero _ _ Hall) as Hzero.
  rewrite (report_phase_completes _ _ _ _ _ _ _ Hloop
             (zeros_have_score _ Hzero) Hrs).
  assert (Havg : (fold_left Qplus (map (fun _ => 0) rs) 0 / inject_Z (len rs)
                  == 0)%Q).
  { rewrite sum_zeros. unfold Qdiv. ring. }
  rewrite (grade_of_zero _ Havg).
  eexists. split; [rewrite <- !app_assoc; reflexivity|]. cbn.
  split; [exact Havg|].
  split; [rewrite no_zero_passes; unfold Qdiv; simpl; ring|].
  unfold len. now rewrite Hlen.
Qed.

Lemma failing_service_still_completes_witness :
  exit_status (snd (run_evaluation Worlds.env_broken [])) = 0.
Proof.
  destruct (failing_service_still_completes Worlds.env_broken "doc-1" []
              [Sample.q_law; Sample.q_cap] eq_refl eq_refl eq_refl)
    as [s [H _]].
  - discriminate.
  - intros n q. exists Sample.server_error. split; [reflexivity | discriminate].
  - now rewrite H.
Defined.

(** ** The figures of a summary *)

Local Open Scope Q_scope.

Lemma count_succ (n : nat) :
  inject_Z (Z.of_nat (S n)) == 1 + inject_Z (Z.of_nat n).
Proof. rewrite Nat2Z.inj_succ, <- Z.add_1_l, inject_Z_plus. reflexivity. Qed.

Lemma count_nonneg (n : nat) : 0 <= inject_Z (Z.of_nat n).
Proof. change 0 with (inject_Z 0). rewrite <- Zle_Qle. lia. Qed.

Lemma count_pos (n : nat) : n <> O -> 0 < inject_Z (Z.of_nat n).
Proof. intros H. change 0 with (inject_Z 0). rewrite <- Zlt_Qlt. lia. Qed.

Lemma sum_at_least (t : Q) (xs : list Q) :
  Forall (fun x => t <= x) xs ->
  t * inject_Z (Z.of_nat (List.length xs)) <= fold_right Qplus 0 xs.
Proof.
  induction 1 as [|x xs Hx _ IH]; cbn [fold_right List.length].
  - change (inject_Z (Z.of_nat 0)) with 0. lra.
  - rewrite count_succ. lra.
Qed.

Lemma sum_at_most (t : Q) (xs : list Q) :
  Forall (fun x => x <= t) xs ->
  fold_right Qplus 0 xs <= t * inject_Z (Z.of_nat (List.length xs)).
Proof.
  induction 1 as [|x xs Hx _ IH]; cbn [fold_right List.length].
  - change (inject_Z (Z.of_nat 0)) with 0. lra.
  - rewrite count_succ. lra.
Qed.

Lemma sum_below (t : Q) (xs : list Q) :
  xs <> [] ->
  Forall (fun x => x < t) xs ->
  fold_right Qplus 0 xs < t * inject_Z (Z.of_nat (List.length xs)).
Proof.
  intros Hne Hall. destruct Hall as [|x xs Hx Hall]; [congruence|].
  cbn [fold_right List.length]. rewrite count_succ.
  assert (Hle : Forall (fun y => y <= t) xs).
  { eapply Forall_impl; [|exact Hall]. intros y Hy. simpl in Hy. lra. }
  pose proof (sum_at_most t xs Hle). lra.
Qed.

Lemma filter_all {A : Type} (f : A -> bool) (l : list A) :
  List.length (filter f l) = List.length l -> Forall (fun x => f x = true) l.
Proof.
  induction l as [|a l IH]; simpl; [constructor|].
  destruct (f a) eqn:E; simpl; intros H.
  - constructor; [assumption | apply IH; lia].
  - pose proof (filter_length_le f l). lia.
Qed.

Lemma filter_none {A : Type} (f : A -> bool) (l : list A) :
  List.length (filter f l) = O -> Forall (fun x => f x = false) l.
Proof.
  induction l as [|a l IH]; simpl; [constructor|].
  destruct (f a) eqn:E; simpl; intros H; [discriminate|].
  constructor; [assumption | now apply IH].
Qed.

(** The scores read from results of the harness lie in [0,1]. *)
Lemma scores_bounded (qs : list Question) (rs : list dict) :
  Forall2 result_for qs rs ->
  forall xs, Forall2 has_score rs xs -> Forall (fun x => 0 <= x <= 1) xs.
Proof.
  induction 1 as [|q r qs rs Hr _ IH]; intros xs Hxs; inversion Hxs; subst;
    constructor; [|now apply IH].
  destruct (result_for_has_score _ _ Hr) as [x' [Hx' Hb]].
  unfold has_score in *. congruence.
Qed.

(** The figures of a written summary, over the scores of its results. *)
Lemma summary_figures (env : Env) (s : Summary) :
  In s (written (fst (run_evaluation env []))) ->
  exists xs,
    xs <> [] /\
    Forall (fun x => 0 <= x <= 1) xs /\
    total_questions s = Z.of_nat (List.length xs) /\
    average_score s ==
      fold_right Qplus 0 xs / inject_Z (Z.of_nat (List.length xs)) /\
    pass_rate s ==
      inject_Z (Z.of_nat (List.length
                  (filter (fun x => Qle_bool (7 # 10) x) xs)))
      / inject_Z (Z.of_nat (List.length xs)).
Proof.
  intros Hin.
  destruct (run_written env s Hin)
    as [setup [eval_set [xs [_ [_ [_ [Hne [_ [Hall [Hxs [Havg [Htot [Hrate _]]]]]]]]]]]]].
  exists xs. split.
  { intros ->. inversion Hxs as [Hrs|]. rewrite <- Hrs in Hall.
    inversion Hall. congruence. }
  split; [eapply scores_bounded; eassumption|].
  split; [rewrite Htot; unfold len; now rewrite (Forall2_length_eq _ _ _ Hxs)|].
  split.
  - rewrite Havg. apply (mean_agrees _ _ Hxs).
  - rewrite Hrate, (pass_fraction_agrees _ _ Hxs). reflexivity.
Qed.

(** The figures of a summary are sound: the average and the pass rate
    lie between 0 and 1, and the number of questions is positive. *)
Theorem summary_figures_bounded (env : Env) (s : Summary) :
  In s (written (fst (run_evaluation env []))) ->
  0 <= average_score s <= 1 /\
  0 <= pass_rate s <= 1 /\
  (0 < total_questions s)%Z.
Proof.
  intros Hin.
  destruct (summary_figures env s Hin) as [xs [Hne [Hb [Htot [Havg Hrate]]]]].
  assert (Hn : List.length xs <> O) by (destruct xs; simpl; congruence).
  pose proof (count_pos _ Hn) as Hpos.
  assert (Hlo : Forall (fun x => 0 <= x) xs)
    by (eapply Forall_impl; [|exact Hb]; intros x Hx; simpl in Hx; tauto).
  assert (Hhi : Forall (fun x => x <= 1) xs)
    by (eapply Forall_impl; [|exact Hb]; intros x Hx; simpl in Hx; tauto).
  pose proof (sum_at_least 0 xs Hlo) as H0.
  pose proof (sum_at_most 1 xs Hhi) as H1.
  pose proof (filter_length_le (fun x => Qle_bool (7 # 10) x) xs) as Hc.
  rewrite Havg, Hrate. repeat split.
  - apply Qle_shift_div_l; [assumption | lra].
  - apply Qle_shift_div_r; [assumption | lra].
  - apply Qle_shift_div_l; [assumption|]. rewrite Qmult_0_l. apply count_nonneg.
  - apply Qle_shift_div_r; [assumption|]. rewrite Qmult_1_l.
    rewrite <- Zle_Qle. lia.
  - rewrite Htot. lia.
Qed.

Lemma summary_figures_bounded_witness :
  exists s,
    written (fst (run_evaluation Sample.env_up [])) = [s] /\
    0 <= average_score s <= 1 /\ 0 <= pass_rate s <= 1.
Proof.
  eexists. split; [reflexivity|].
  destruct (summary_figures_bounded Sample.env_up _ (or_introl eq_refl))
    as [H1 [H2 _]].
  now split.
Defined.

End RunMore.

(* ================================================================== *)
(** * Matching, read against the case-blind search *)
(* ================================================================== *)

Module CaseFacts.
Import Py PyFacts Score ScoreFacts QuestionFacts ScoreMore Case.

Lemma nat_of_lower_char (c : ascii) :
  nat_of_ascii (lower_char c) =
  if is_upper c then (nat_of_ascii c + 32)%nat else nat_of_ascii c.
Proof.
  unfold lower_char, is_upper.
  destruct ((65 <=? nat_of_ascii c)%nat && (nat_of_ascii c <=? 90)%nat) eqn:E;
    [|reflexivity].
  apply andb_prop in E. destruct E as [_ E]. apply Nat.leb_le in E.
  apply nat_ascii_embedding. lia.
Qed.

Lemma nat_of_ascii_inj (a b : ascii) : nat_of_ascii a = nat_of_ascii b -> a = b.
Proof.
  intros H. rewrite <- (ascii_nat_embedding a), <- (ascii_nat_embedding b).
  now rewrite H.
Qed.

(** Two characters are the same letter exactly when [str.lower] sends
    them to the same character. *)
Lemma same_letter_iff (a b : ascii) :
  same_letter a b = true <-> lower_char a = lower_char b.
Proof.
  split.
  - intros H. apply nat_of_ascii_inj. rewrite !nat_of_lower_char.
    unfold same_letter in H. unfold is_upper in *.
    destruct ((65 <=? nat_of_ascii a)%nat && (nat_of_ascii a <=? 90)%nat) eqn:Ea,
             ((65 <=? nat_of_ascii b)%nat && (nat_of_ascii b <=? 90)%nat) eqn:Eb;
      rewrite ?andb_true_l, ?andb_false_l, ?orb_false_r in H;
      repeat match goal with
             | H : (_ || _) = true |- _ => apply orb_prop in H; destruct H as [H|H]
             | H : (_ && _) = true |- _ => apply andb_prop in H; destruct H
             | H : (_ && _) = false |- _ => apply andb_false_iff in H
             | H : (_ =? _)%nat = true |- _ => apply Nat.eqb_eq in H
             | H : (_ <=? _)%nat = true |- _ => apply Nat.leb_le in H
             | H : (_ <=? _)%nat = false \/ (_ <=? _)%nat = false |- _ =>
                 rewrite !Nat.leb_gt in H
             end; lia.
  - intros H. apply (f_equal nat_of_ascii) in H. rewrite !nat_of_lower_char in H.
    unfold same_letter, is_upper in *.
    destruct ((65 <=? nat_of_ascii a)%nat && (nat_of_ascii a <=? 90)%nat) eqn:Ea,
             ((65 <=? nat_of_ascii b)%nat && (nat_of_ascii b <=? 90)%nat) eqn:Eb;
      rewrite ?andb_true_l, ?andb_false_l, ?orb_false_r;
      repeat match goal with
             | H : (_ && _) = true |- _ => apply andb_prop in H; destruct H
             | H : (_ && _) = false |- _ => apply andb_false_iff in H
             | H : (_ <=? _)%nat = true |- _ => apply Nat.leb_le in H
             | H : (_ <=? _)%nat = false \/ (_ <=? _)%nat = false |- _ =>
                 rewrite !Nat.leb_gt in H
             end;
      rewrite ?orb_true_iff, ?Nat.eqb_eq; lia.
Qed.

Lemma equal_ignoring_case_iff (s t : string) :
  equal_ignoring_case s t = true <-> lower s = lower t.
Proof.
  revert t. induction s as [|a s IH]; intros [|b t]; simpl;
    try (split; [discriminate | discriminate]); [tauto|].
  rewrite andb_true_iff, same_letter_iff, IH. split.
  - intros [-> ->]. reflexivity.
  - intros [= -> ->]. now split.
Qed.

Lemma occurs_ignoring_case_iff (k a : string) :
  occurs_ignoring_case k a <-> occurs_ci k a.
Proof.
  unfold occurs_ignoring_case, occurs_ci.
  split; intros [pre [mid [post [H1 H2]]]]; exists pre, mid, post;
    (split; [assumption|]); now apply equal_ignoring_case_iff.
Qed.

Lemma same_letter_dec (a b : ascii) :
  same_letter a b = if ascii_dec (lower_char a) (lower_char b) then true else false.
Proof.
  destruct (ascii_dec (lower_char a) (lower_char b)) as [E|E].
  - now apply same_letter_iff.
  - destruct (same_letter a b) eqn:H; [|reflexivity].
    apply same_letter_iff in H. contradiction.
Qed.

Lemma starts_ignoring_case_prefix (k a : string) :
  starts_ignoring_case k a = String.prefix (lower k) (lower a).
Proof.
  revert a. induction k as [|c k IH]; intros a; [now destruct a|].
  destruct a as [|d a]; [reflexivity|].
  cbn [starts_ignoring_case lower String.prefix].
  rewrite same_letter_dec, IH.
  now destruct (ascii_dec (lower_char c) (lower_char d)).
Qed.

(** The test of line 78, [keyword.lower() in answer] with the answer
    already lower-cased, is the case-blind search. *)
Lemma contains_ignoring_case_str_in (k a : string) :
  str_in (lower k) (lower a) = contains_ignoring_case k a.
Proof.
  induction a as [|d a IH].
  - cbn [lower str_in contains_ignoring_case].
    now rewrite (starts_ignoring_case_prefix k "").
  - cbn [lower str_in contains_ignoring_case]. rewrite IH.
    now rewrite (starts_ignoring_case_prefix k (String d a)).
Qed.

Lemma contains_ignoring_case_iff (k a : string) :
  contains_ignoring_case k a = true <-> occurs_ignoring_case k a.
Proof.
  now rewrite <- contains_ignoring_case_str_in, str_in_lower_iff,
              occurs_ignoring_case_iff.
Qed.


Local Open Scope Q_scope.




(** Full marks: for a question with at least one expected keyword, all
    ASCII, and an ASCII answer in which every keyword occurs (letter
    case ignored) and no negative phrase does, the score is 1.0, with or
    without citations (the cap of line 97 absorbs the bonus). *)
Theorem all_keywords_full_marks
  (expected : list string) (data : AskBody) :
  expected <> [] ->
  Forall (fun k => is_ascii k = true) expected ->
  is_ascii (answer_text data) = true ->
  (forall k, In k expected -> occurs_ignoring_case k (answer_text data)) ->
  has_negative (lower (answer_text data)) = false ->
  final_score expected data == 1.
Proof.
  intros Hne _ _ Hall Hneg.
  rewrite (final_score_clean _ _ Hneg), (base_score_nonempty _ _ Hne).
  rewrite matched_all
    by (intros k Hk; apply occurs_ignoring_case_iff, Hall, Hk).
  assert (Hone : Z.of_nat (List.length expected) # Pos.of_nat (List.length expected) == 1).
  { unfold Qeq. cbn [Qnum Qden].
    rewrite <- (positive_nat_Z (Pos.of_nat _)), Nat2Pos.id; [lia|].
    destruct expected; simpl; congruence. }
  rewrite Hone.
  destruct (min_spec (1 + bonus data) 1) as [[Hle ->]|[_ ->]]; [|reflexivity].
  destruct (bonus_cases data) as [[_ Hb]|[_ Hb]]; rewrite Hb in *; lra.
Qed.

Lemma all_keywords_full_marks_witness :
  final_score (expected_keywords Sample.q_law) Worlds.full_marks == 1.
Proof.
  apply (all_keywords_full_marks (expected_keywords Sample.q_law)
           Worlds.full_marks).
  - discriminate.
  - repeat constructor.
  - reflexivity.
  - intros k [<-|[<-|[]]]; apply contains_ignoring_case_iff; reflexivity.
  - reflexivity.
Defined.

(** Citations never lower a score: of two responses with the same
    answer, the one with citations scores at least as much as the one
    without. *)
Theorem citations_never_lower_the_score
  (expected : list string) (text : option string) (cited : list string) :
  final_score expected {| answer := text; citations := None |} <=
  final_score expected {| answer := text; citations := Some cited |}.
Proof.
  unfold final_score, reward, penalise, has_citations, citation_list.
  cbn [answer_text answer citations].
  set (a := lower _).
  pose proof (base_score_bounds expected a) as Hb.
  set (base := base_score expected a) in *.
  change (len (@nil string) >? 0)%Z with false. cbv iota.
  destruct (len cited >? 0)%Z;
    destruct (has_negative a);
    repeat match goal with
           | |- context [Py.min ?x 1] =>
               let H := fresh in
               destruct (min_spec x 1) as [[? H]|[? H]]; rewrite H; clear H
           end; lra.
Qed.

End CaseFacts.

(* ================================================================== *)
(** * Facts about the binary64 arithmetic *)
(* ================================================================== *)

Module Binary64Facts.
Import Binary64.



(** Seven keywords of ten, no penalty and no bonus, score the float 0.7;
    the spec's example of a half-matched, deflecting, cited answer
    scores the float 0.35. *)
Example scores_as_floats :
  seven_of_ten = literal 7 10 /\
  final_score 1 2 true true = literal 35 100.
Proof. split; vm_compute; reflexivity. Qed.




End Binary64Facts.

(* ================================================================== *)
(** * The order of the requests *)
(* ================================================================== *)

Module RunOrder.
Import Py PyFacts Score ScoreFacts QuestionFacts RunFacts RunMore.
Local Open Scope list_scope.

(** The requests of a run are those for an initial stretch of the
    question file. *)
Lemma asked_is_a_prefix (env : Env) :
  exists k,
    asked (fst (run_evaluation env [])) =
    map question (firstn k (questions_of env)).
Proof.
  destruct (healthz env) as [status|e] eqn:Hh.
  2: { destruct (run_unhealthy env) as [r [-> _]]; [congruence|]. now exists O. }
  destruct (Z.eq_dec status 200) as [->|Hne].
  2: { destruct (run_unhealthy env) as [r [-> _]]; [congruence|]. now exists O. }
  destruct (upload_spec env [GetHealthz]) as [ext [r1 [Hu [[Ha Hw] _]]]].
  rewrite (run_setup env _ _ Hh Hu).
  assert (Hsetup : asked ([GetHealthz] ++ ext) = [])
    by (rewrite asked_app; simpl; exact Ha).
  unfold questions_of.
  destruct r1 as [[|d ds]|code|e]; try (exists O; cbn [fst]; now rewrite Hsetup).
  destruct (eval_file env) as [eval_set|].
  2: { exists O. cbn [fst]. rewrite asked_app, Hsetup. reflexivity. }
  rewrite report_phase_asked.
  destruct (eval_loop_spec env (d :: ds) eval_set []
              (([GetHealthz] ++ ext) ++ [LoadEvalSet])) as [k [r [-> _]]].
  exists k. cbn [fst].
  rewrite asked_app, asked_app, Hsetup, asked_requests. reflexivity.
Qed.

(** A run whose upload does not bring back a document id asks nothing. *)
Lemma no_document_asks_nothing (env : Env) :
  (forall d ds, snd (upload_test_documents env [GetHealthz]) <> Ok (d :: ds)) ->
  asked (fst (run_evaluation env [])) = [].
Proof.
  intros Hno.
  destruct (healthz env) as [status|e] eqn:Hh.
  2: { destruct (run_unhealthy env) as [r [-> _]]; [congruence | reflexivity]. }
  destruct (Z.eq_dec status 200) as [->|Hne].
  2: { destruct (run_unhealthy env) as [r [-> _]]; [congruence | reflexivity]. }
  destruct (upload_spec env [GetHealthz]) as [ext [r1 [Hu [[Ha Hw] _]]]].
  rewrite (run_setup env _ _ Hh Hu).
  assert (Hsetup : asked ([GetHealthz] ++ ext) = [])
    by (rewrite asked_app; simpl; exact Ha).
  destruct r1 as [[|d ds]|code|e]; try exact Hsetup.
  exfalso. apply (Hno d ds). now rewrite Hu.
Qed.

(** In every run, however it ends, the requests put to [/ask] are those
    for an initial stretch of the question file, in its order: no
    question is asked twice, skipped or asked out of turn. When the
    set-up fails (the probe does not answer 200, the upload brings back
    no document id, or the question file is missing) no question is
    asked at all. *)
Theorem requests_follow_the_file (env : Env) :
  let run := run_evaluation env [] in
  (exists k, asked (fst run) = map question (firstn k (questions_of env))) /\
  (healthz env <> Responded 200 -> asked (fst run) = []) /\
  ((forall d ds,
       snd (upload_test_documents env [GetHealthz]) <> Ok (d :: ds)) ->
   asked (fst run) = []) /\
  (eval_file env = None -> asked (fst run) = []).
Proof.
  cbv zeta. split; [apply asked_is_a_prefix|].
  split.
  { intros Hne. now destruct (run_unhealthy env Hne) as [r [-> _]]. }
  split; [apply no_document_asks_nothing|].
  intros Hnone. destruct (asked_is_a_prefix env) as [k ->].
  unfold questions_of. rewrite Hnone. now destruct k.
Qed.

Lemma requests_follow_the_file_witness :
  asked (fst (run_evaluation Sample.env_down [])) = [] /\
  asked (fst (run_evaluation Sample.env_no_docs [])) = [] /\
  asked (fst (run_evaluation (Worlds.with_questions None) [])) = [].
Proof.
  split; [|split].
  - destruct (requests_follow_the_file Sample.env_down) as [_ [H _]].
    apply H. discriminate.
  - destruct (requests_follow_the_file Sample.env_no_docs) as [_ [_ [H _]]].
    apply H. intros d ds. discriminate.
  - destruct (requests_follow_the_file (Worlds.with_questions None))
      as [_ [_ [_ H]]].
    apply H. reflexivity.
Defined.

End RunOrder.
